(** * kiam: the agent's metadata handlers and the server's role lookup

    A shallow embedding of the request path of kiam:
    - [ParseClientIP], [Server_clientIP] and [buildClientIP]
      (pkg/aws/metadata/server.go),
    - [credentialsHandler] (pkg/aws/metadata/handler_credentials.go),
    - [roleNameHandler] (pkg/aws/metadata/handler_role.go),
    - [errorHandler], the adapter that turns a handler's [(status, error)]
      into an HTTP response,
    - [GetPodRole] and [GetRoleCredentials] of the gRPC server
      (pkg/server/server.go),
    - the credential cache behind [CredentialsForRole] (pkg/aws/sts), which
      is modelled from the specification.

    Go strings are byte strings: they are modelled by [string], whose
    characters are the 256 values of [ascii].  A Go function returning
    [(T, error)] returns a pair whose second component is [None] for a
    nil error. *)

From stdpp Require Import base numbers list strings gmap.
From Stdlib Require Import Ascii ZArith Lia.

Local Open Scope Z_scope.

(** ** Errors

    The handlers compare errors by identity ([resp.err == PodNotFound]) and
    print them with [Error()].  A package-level error variable is
    identified by its qualified name; [fmt.Errorf] at a call site makes a
    fresh value, which is never identical to a package-level variable. *)

Inductive error : Type :=
  | ErrVar (name : string) (text : string)
  | Errorf (text : string).

Definition Error (e : error) : string :=
  match e with
  | ErrVar _ text => text
  | Errorf text => text
  end.

(** [e == v] for a package-level variable named [v]. *)
Definition is_var (v : string) (e : option error) : bool :=
  match e with
  | Some (ErrVar name _) => bool_decide (name = v)
  | _ => false
  end.

(** pkg/aws/metadata/handler_role.go: [PodNotFound = fmt.Errorf("pod not found")]. *)
Definition PodNotFound : error := ErrVar "metadata.PodNotFound" "pod not found".
(** pkg/server/server.go: [PodNotFoundError = fmt.Errorf("pod not found")]. *)
Definition PodNotFoundError : error := ErrVar "server.PodNotFoundError" "pod not found".
(** pkg/server/errors.go *)
Definition ErrPodNotFound : error := ErrVar "server.ErrPodNotFound" "no pod found".
Definition ErrPolicyForbidden : error := ErrVar "server.ErrPolicyForbidden" "forbidden by policy".
(** context.Canceled and context.DeadlineExceeded, the two values of [ctx.Err()]. *)
Definition Canceled : error := ErrVar "context.Canceled" "context canceled".
Definition DeadlineExceeded : error :=
  ErrVar "context.DeadlineExceeded" "context deadline exceeded".

(** net/http status codes used by the handlers. *)
Definition StatusOK : Z := 200.
Definition StatusBadRequest : Z := 400.
Definition StatusForbidden : Z := 403.
Definition StatusNotFound : Z := 404.
Definition StatusInternalServerError : Z := 500.

(** ** Package strings, for a one-byte separator

    [Split s sep] cuts [s] at every occurrence of the byte [sep] and keeps
    the empty pieces; the result is never empty ([Split "" ":"] is [[""]]).
    [Join] puts the separator back between the pieces. *)

Module strings.

Fixpoint ContainsByte (s : string) (c : ascii) : bool :=
  match s with
  | EmptyString => false
  | String a rest => if decide (a = c) then true else ContainsByte rest c
  end.

Fixpoint Split (s : string) (sep : ascii) : list string :=
  match s with
  | EmptyString => [EmptyString]
  | String a rest =>
      if decide (a = sep) then EmptyString :: Split rest sep
      else match Split rest sep with
           | [] => [String a EmptyString]
           | piece :: pieces => String a piece :: pieces
           end
  end.

Fixpoint Join (elems : list string) (sep : string) : string :=
  match elems with
  | [] => EmptyString
  | [x] => x
  | x :: rest => x +:+ sep +:+ Join rest sep
  end.

(** [strings.Contains(s, substr)]: [substr] occurs in [s]. *)
Definition Contains (s substr : string) : Prop :=
  exists before after, s = before +:+ substr +:+ after.

End strings.

(** ** pkg/aws/metadata/server.go: ParseClientIP *)

Definition colon : ascii := ":"%char.

Definition ParseClientIP (addr : string) : string * option error :=
  let parts := strings.Split addr colon in
  if (length parts <? 2)%nat then
    (EmptyString,
     Some (Errorf ("incorrect format, expected ip:port, was: " +:+ addr)))
  else
    (strings.Join (take (length parts - 1) parts) ":", None).


(** ** pkg/aws/metadata/server.go: configuration and client IP *)

(** [time.Duration] counts nanoseconds. *)
Definition Millisecond : Z := 1000000.
Definition Second : Z := 1000 * Millisecond.

Record ServerConfig := {
  ListenPort : Z;
  MetadataEndpoint : string;
  AllowIPQuery : bool;
  MaxElapsedTime : Z;
}.

Definition NewConfig (port : Z) : ServerConfig :=
  {| MetadataEndpoint := "http://169.254.169.254";
     ListenPort := port;
     AllowIPQuery := false;
     MaxElapsedTime := Second * 10 |}.

(** The request's context: [None] while it is live, [Some (t, e)] when it is
    done from clock time [t] on, [ctx.Err()] being [e] from then on. *)
Definition Context : Type := option (Z * error).

Definition ctxDone (ctx : Context) (now : Z) : bool :=
  match ctx with
  | Some (t, _) => bool_decide (t <= now)
  | None => false
  end.

(** What the handlers read of an [*http.Request]: the peer address, the
    query of the URL, [req.Form] (empty until [ParseForm] has run), the
    route variables of gorilla/mux, and the request's context. *)
Record Request := {
  RemoteAddr : string;
  URLQuery : gmap string string;
  Form : gmap string string;
  Vars : gmap string string;
  Ctx : Context;
}.

(** [url.Values.Get] and [mux.Vars(req)[key]]: the empty string for a key
    that is absent. *)
Definition Get (values : gmap string string) (key : string) : string :=
  default EmptyString (values !! key).

Definition ParseForm (req : Request) : Request :=
  {| RemoteAddr := RemoteAddr req;
     URLQuery := URLQuery req;
     Form := URLQuery req;
     Vars := Vars req;
     Ctx := Ctx req |}.

(** The role finder behind [s.finder]: the answer of its [n]-th call
    (counted from 0) for an IP.  The answer may change from call to call as
    the pod cache learns of pods.  An IP that matches no pod, and a pod
    without a role, give [("", nil)], as testutil's stubFinder does. *)
Definition RoleFinder : Type := nat -> string -> string * option error.

Record Server := {
  cfg : ServerConfig;
  finder : RoleFinder;
}.

(** [func (s *Server) clientIP(req)]: the branch on [AllowIPQuery] is empty. *)
Definition Server_clientIP (s : Server) (req : Request) : string * option error :=
  if AllowIPQuery (cfg s) then ParseClientIP (RemoteAddr req)
  else ParseClientIP (RemoteAddr req).

(** [buildClientIP(config)]: the function handed to the handler structs. *)
Definition buildClientIP (config : ServerConfig) (req : Request) : string * option error :=
  let remote := fun req => ParseClientIP (RemoteAddr req) in
  if AllowIPQuery config then
    let ip := Get (Form req) "ip" in
    if decide (ip <> EmptyString) then (ip, None) else remote req
  else remote req.

Definition getStatusBucket (status : Z) : string :=
  if (200 <=? status) && (status <? 300) then "2xx"
  else if (300 <=? status) && (status <? 400) then "3xx"
  else if (400 <=? status) && (status <? 500) then "4xx"
  else if (500 <=? status) && (status <? 600) then "5xx"
  else "unknown".

(** ** net/http: the ResponseWriter of the server

    [Header()] returns the live map [HandlerHeader].  [WriteHeader] freezes
    a copy of it as the header block of the response; a second call changes
    nothing.  [Write] calls [WriteHeader(200)] when no header was written
    yet, and then adds a Content-Type found by [DetectContentType] when the
    frozen block has none.  Changing the map after the header was written
    has no effect on the response.  [ConnErr] is the state of the
    connection: the error a [Write] returns, if any. *)

Record ResponseWriter := {
  HandlerHeader : gmap string string;
  WroteHeader : bool;
  Status : Z;
  SentHeader : gmap string string;
  Body : string;
  ConnErr : option error;
}.

Definition NewResponseWriter (conn : option error) : ResponseWriter :=
  {| HandlerHeader := ∅; WroteHeader := false; Status := 0;
     SentHeader := ∅; Body := EmptyString; ConnErr := conn |}.

Definition Header_Set (key value : string) (w : ResponseWriter) : ResponseWriter :=
  {| HandlerHeader := <[key := value]> (HandlerHeader w);
     WroteHeader := WroteHeader w; Status := Status w;
     SentHeader := SentHeader w; Body := Body w; ConnErr := ConnErr w |}.

Definition WriteHeader (code : Z) (w : ResponseWriter) : ResponseWriter :=
  if WroteHeader w then w
  else {| HandlerHeader := HandlerHeader w;
          WroteHeader := true; Status := code;
          SentHeader := HandlerHeader w; Body := Body w; ConnErr := ConnErr w |}.

(** What the Go runtime contributes: the content sniffer of net/http and
    the rendering of a Go string as a JSON string literal by encoding/json. *)
Record Runtime := {
  DetectContentType : string -> string;
  json_String : string -> string;
}.

Definition sniff (rt : Runtime) (data : string) (w : ResponseWriter) : ResponseWriter :=
  match SentHeader w !! "Content-Type" with
  | Some _ => w
  | None =>
      {| HandlerHeader := HandlerHeader w;
         WroteHeader := WroteHeader w; Status := Status w;
         SentHeader := <["Content-Type" := DetectContentType rt data]> (SentHeader w);
         Body := Body w; ConnErr := ConnErr w |}
  end.

Definition Write (rt : Runtime) (data : string) (w : ResponseWriter)
  : ResponseWriter * option error :=
  let w1 := if WroteHeader w then w else sniff rt data (WriteHeader StatusOK w) in
  match ConnErr w1 with
  | Some e => (w1, Some e)
  | None =>
      ({| HandlerHeader := HandlerHeader w1;
          WroteHeader := WroteHeader w1; Status := Status w1;
          SentHeader := SentHeader w1;
          Body := Body w1 +:+ data; ConnErr := ConnErr w1 |}, None)
  end.

(** The line feed that [fmt.Fprintln] and [json.Encoder.Encode] append. *)
Definition LF : string := String "010"%char EmptyString.

(** [http.Error(w, error, code)] *)
Definition http_Error (rt : Runtime) (msg : string) (code : Z) (w : ResponseWriter)
  : ResponseWriter :=
  let w := Header_Set "Content-Type" "text/plain; charset=utf-8" w in
  let w := Header_Set "X-Content-Type-Options" "nosniff" w in
  let w := WriteHeader code w in
  fst (Write rt (msg +:+ LF) w).

(** ** sts.Credentials and its JSON encoding

    The fields are those [translateCredentialsToProto] copies, in the order
    the handler's test expects them in the encoded object. *)

Record Credentials := {
  Code : string;
  Type_ : string;
  AccessKeyId : string;
  SecretAccessKey : string;
  Token : string;
  Expiration : string;
  LastUpdated : string;
}.

Definition dquote : string := String "034"%char EmptyString.

(** One ["name":value] member of a JSON object. *)
Definition member (rt : Runtime) (name value : string) : string :=
  dquote +:+ name +:+ dquote +:+ ":" +:+ json_String rt value.

Definition json_Marshal (rt : Runtime) (c : option Credentials) : string :=
  match c with
  | None => "null"
  | Some c =>
      "{" +:+ member rt "Code" (Code c)
      +:+ "," +:+ member rt "Type" (Type_ c)
      +:+ "," +:+ member rt "AccessKeyId" (AccessKeyId c)
      +:+ "," +:+ member rt "SecretAccessKey" (SecretAccessKey c)
      +:+ "," +:+ member rt "Token" (Token c)
      +:+ "," +:+ member rt "Expiration" (Expiration c)
      +:+ "," +:+ member rt "LastUpdated" (LastUpdated c)
      +:+ "}"
  end.

(** [json.NewEncoder(w).Encode(v)]: the encoding and a line feed, in one
    [Write]. *)
Definition Encode (rt : Runtime) (c : option Credentials) (w : ResponseWriter)
  : ResponseWriter * option error :=
  Write rt (json_Marshal rt c +:+ LF) w.

(** ** What a handler does besides answering

    A handler runs on a [World]: the response writer, the trace of what it
    did to its collaborators (calls to the role finder and the credentials
    provider as the handler makes them, through [s.finder] in the role-name
    handler and through the helpers [findRole] and [credentialsForRole] in
    the credentials handler, and meters marked in the metrics registry) in
    the order it did them, and the clock.  Timers and log lines are left
    out. *)

Inductive Event : Type :=
  | FindRoleCall (ip : string)
  | CredentialsForRoleCall (role : string)
  | MeterMark (name : string).

Record World := {
  W : ResponseWriter;
  Trace : list Event;
  Now : Z;
}.

Definition emit (e : Event) (σ : World) : World :=
  {| W := W σ; Trace := Trace σ ++ [e]; Now := Now σ |}.

Definition setW (w : ResponseWriter) (σ : World) : World :=
  {| W := w; Trace := Trace σ; Now := Now σ |}.

Definition setNow (t : Z) (σ : World) : World :=
  {| W := W σ; Trace := Trace σ; Now := t |}.

Definition NewWorld (conn : option error) : World :=
  {| W := NewResponseWriter conn; Trace := []; Now := 0 |}.

(** A handler returns [(status, err)], or panics. *)
Inductive Outcome : Type :=
  | Returned (status : Z) (err : option error)
  | Panicked (reason : string).

Definition nilDereference : string :=
  "runtime error: invalid memory address or nil pointer dereference".

(** ** pkg/aws/metadata/handler_credentials.go

    [findRole(ctx, s.finder, ip)] and [credentialsForRole(ctx, s.credentials,
    role)] and the variable [EmptyRoleError] are declared in files that are
    not at hand, so their results are parameters of the handler, as is
    [ctx.Err()], the state of the handler's context (nil while it is neither
    cancelled nor timed out) when the branch for a failed issuance reads
    it.  Calling [Error()] on a nil error panics. *)
Record Helpers := {
  findRole : string -> string * option error;
  credentialsForRole : string -> option Credentials * option error;
  ctx_Err : option error;
  EmptyRoleError : error;
}.

Definition credentialsHandler (rt : Runtime) (h : Helpers) (s : Server)
    (req : Request) (σ : World) : Outcome * World :=
  let req := ParseForm req in
  let '(ip, err) := Server_clientIP s req in
  match err with
  | Some e =>
      (Returned StatusInternalServerError
         (Some (Errorf ("error parsing client ip " +:+ ip +:+ ": " +:+ Error e))), σ)
  | None =>
  let σ := emit (FindRoleCall ip) σ in
  let '(foundRole, err) := findRole h ip in
  match err with
  | Some e =>
      (Returned StatusInternalServerError
         (Some (Errorf ("error finding pod for ip " +:+ ip +:+ ": " +:+ Error e))),
       emit (MeterMark "credentialsHandler.findRoleError") σ)
  | None =>
  if decide (foundRole = EmptyString) then
    (Returned StatusNotFound (Some (EmptyRoleError h)),
     emit (MeterMark "credentialsHandler.emptyRole") σ)
  else
  let requestedRole := Get (Vars req) "role" in
  if decide (requestedRole = EmptyString) then
    (Returned StatusBadRequest (Some (Errorf "no role specified")), σ)
  else
  if decide (foundRole <> requestedRole) then
    (Returned StatusForbidden
       (Some (Errorf ("unable to assume role " +:+ requestedRole
                      +:+ ", role on pod specified is " +:+ foundRole))), σ)
  else
  let σ := emit (CredentialsForRoleCall requestedRole) σ in
  let '(credentials, err) := credentialsForRole h requestedRole in
  match err with
  | Some _ =>
      match ctx_Err h with
      | Some ce =>
          (Returned StatusInternalServerError
             (Some (Errorf ("unexpected error: " +:+ Error ce))), σ)
      | None => (Panicked nilDereference, σ)
      end
  | None =>
  let '(w, err) := Encode rt credentials (W σ) in
  match err with
  | Some e =>
      (Returned StatusInternalServerError
         (Some (Errorf ("error encoding credentials: " +:+ Error e))), setW w σ)
  | None =>
  let w := Header_Set "Content-Type" "application/json" w in
  (Returned StatusOK None,
   emit (MeterMark "credentialsHandler.success") (setW w σ))
  end end end end.

(** ** pkg/aws/metadata/server.go: errorHandler

    The adapter between a handler and net/http: it marks the response meter
    of the status and, when the handler returned an error, writes it with
    [http.Error].  A panic of the handler is not caught here: net/http
    recovers it and closes the connection, so that no response is sent.
    The handler is the function behind [handle.Handle]. *)

Definition getResponseMeter (name : string) (result : Z) : string :=
  "handlerResponse-" +:+ name +:+ "." +:+ getStatusBucket result.

Definition errorResponse (rt : Runtime) (name : string) (r : Outcome * World)
  : Outcome * World :=
  match r with
  | (Returned status err, σ) =>
      let σ := emit (MeterMark (getResponseMeter name status)) σ in
      match err with
      | Some e => (Returned status err, setW (http_Error rt (Error e) status (W σ)) σ)
      | None => (Returned status err, σ)
      end
  | (Panicked reason, σ) => (Panicked reason, σ)
  end.

Definition errorHandler (rt : Runtime) (name : string)
    (handle : Request -> World -> Outcome * World)
    (req : Request) (σ : World) : Outcome * World :=
  errorResponse rt name (handle req σ).

(** What the client receives: nothing after a panic, and otherwise the
    status and header block that were frozen when the header was written,
    and the body. *)
Record Response := {
  StatusCode : Z;
  Header : gmap string string;
  ResponseBody : string;
}.

Definition response (r : Outcome * World) : option Response :=
  match r with
  | (Returned _ _, σ) =>
      (* a handler that returns without writing gets the header written
         for it, with status 200 *)
      let w := WriteHeader StatusOK (W σ) in
      Some {| StatusCode := Status w;
              Header := SentHeader w;
              ResponseBody := Body w |}
  | (Panicked _, _) => None
  end.

(** The credentials endpoint as it is served. *)
Definition serveCredentials (rt : Runtime) (h : Helpers) (s : Server)
    (req : Request) (σ : World) : Outcome * World :=
  errorHandler rt "credentials" (credentialsHandler rt h s) req σ.

(** ** github.com/vmg/backoff, as the role-name handler uses it

    An [ExponentialBackOff] answers [NextBackOff] with [Stop] ([None] here)
    once more than [MaxElapsedTime] has passed since the strategy was reset,
    unless [MaxElapsedTime] is 0, and otherwise with its next interval; the
    intervals are randomised, so the strategy carries the sequence it draws.
    [WithContext] makes the answer [Stop] as soon as the context is done.

    [Retry] calls the operation until it returns nil or the strategy stops,
    sleeping for the interval in between; a context that is done during
    the sleep ends it.  Either way [Retry] returns the operation's last
    error.  The loop need not end, so the model counts the attempts it may
    still make in [fuel], and is [None] when they run out. *)

Module backoff.

Record ExponentialBackOff := {
  MaxElapsedTime : Z;
  Interval : nat -> Z;
}.

Definition DefaultMaxElapsedTime : Z := 15 * 60 * Second.

Definition NewExponentialBackOff (draw : nat -> Z) : ExponentialBackOff :=
  {| MaxElapsedTime := DefaultMaxElapsedTime; Interval := draw |}.

Definition setMaxElapsedTime (d : Z) (b : ExponentialBackOff) : ExponentialBackOff :=
  {| MaxElapsedTime := d; Interval := Interval b |}.

Definition NextBackOff (b : ExponentialBackOff) (n : nat) (elapsed : Z) : option Z :=
  if bool_decide (MaxElapsedTime b <> 0) && bool_decide (MaxElapsedTime b < elapsed)
  then None
  else Some (Interval b n).

Fixpoint Retry {St : Type} (clock : St -> Z) (sleepUntil : Z -> St -> St)
    (operation : nat -> St -> option error * St)
    (b : ExponentialBackOff) (ctx : Context) (start : Z)
    (fuel n : nat) (st : St) : option (option error * St) :=
  match fuel with
  | O => None
  | S fuel =>
      let '(err, st) := operation n st in
      match err with
      | None => Some (None, st)
      | Some e =>
          if ctxDone ctx (clock st) then Some (Some e, st)
          else
            match NextBackOff b n (clock st - start) with
            | None => Some (Some e, st)
            | Some next =>
                let wake := clock st + next in
                match ctx with
                | Some (t, _) =>
                    if bool_decide (t <= wake) then Some (Some e, sleepUntil t st)
                    else Retry clock sleepUntil operation b ctx start fuel (S n)
                           (sleepUntil wake st)
                | None =>
                    Retry clock sleepUntil operation b ctx start fuel (S n)
                      (sleepUntil wake st)
                end
            end
      end
  end.

End backoff.

(** ** pkg/aws/metadata/handler_role.go

    The handler starts a goroutine that retries the lookup and sends the
    outcome on [respCh], and waits for the first of that outcome and the end
    of the request's context.  The model runs the retry loop on the clock of
    the world; what is random or a matter of timing in a run is given by
    [Timing]: how long the [n]-th lookup takes and the interval the
    strategy draws after the [n]-th failure.  The context wins the [select]
    when it is done no later than the outcome is ready; when it is done
    already as the handler is entered, the handler returns before the
    goroutine has made its first lookup, which is then no part of what the
    handler did. *)

Record Timing := {
  latency : nat -> Z;
  draw : nat -> Z;
}.

(** The goroutine's state: the world and what [roleCh] holds. *)
Definition RoleState : Type := World * option string.

Definition roleClock (st : RoleState) : Z := Now (fst st).

Definition roleSleepUntil (t : Z) (st : RoleState) : RoleState :=
  (setNow t (fst st), snd st).

(** The closure [op] of the handler, at its [n]-th call. *)
Definition roleOp (tm : Timing) (s : Server) (ip : string) (n : nat) (st : RoleState)
  : option error * RoleState :=
  let '(σ, roleCh) := st in
  let σ := setNow (Now σ + latency tm n) (emit (FindRoleCall ip) σ) in
  let '(role, err) := finder s n ip in
  match err with
  | Some e => (Some e, (σ, roleCh))
  | None =>
      if decide (role = EmptyString) then (Some PodNotFound, (σ, roleCh))
      else (None, (σ, Some role))
  end.

(** The branch [case resp := <-respCh] of the handler's [select]. *)
Definition roleNameResponse (rt : Runtime) (ip : string) (err : option error)
    (st : RoleState) : Outcome * World :=
  let '(σ, roleCh) := st in
  if is_var "metadata.PodNotFound" err then
    (Returned StatusNotFound (Some (Errorf ("pod not found for ip " +:+ ip))),
     emit (MeterMark "roleNameHandler.podNotFound") σ)
  else
    match err with
    | Some e =>
        (Returned StatusInternalServerError
           (Some (Errorf ("error finding pod: " +:+ Error e))), σ)
    | None =>
        (* [role := <-roleCh]: the operation has filled the channel *)
        let role := default EmptyString roleCh in
        if decide (role = EmptyString) then
          (Returned StatusNotFound (Some (Errorf ("no role for pod " +:+ ip))), σ)
        else
          let '(w, _) := Write rt role (W σ) in
          (Returned StatusOK None,
           emit (MeterMark "roleNameHandler.success") (setW w σ))
    end.

Definition roleNameHandler (rt : Runtime) (tm : Timing) (fuel : nat) (s : Server)
    (req : Request) (σ : World) : option (Outcome * World) :=
  let '(ip, err) := Server_clientIP s req in
  match err with
  | Some e =>
      Some (Returned StatusInternalServerError
              (Some (Errorf ("error parsing ip: " +:+ Error e))), σ)
  | None =>
      let strategy :=
        backoff.setMaxElapsedTime (MaxElapsedTime (cfg s))
          (backoff.NewExponentialBackOff (draw tm)) in
      match backoff.Retry roleClock roleSleepUntil (roleOp tm s ip)
              strategy (Ctx req) (Now σ) fuel 0%nat (σ, None) with
      | None => None
      | Some (err, st) =>
          match Ctx req with
          | Some (t, e) =>
              if bool_decide (t <= roleClock st) then
                (* [case <-req.Context().Done()]: at [t], or at once, before
                   the goroutine has made a lookup, when the context was
                   done already *)
                Some (Returned StatusInternalServerError (Some e),
                      if bool_decide (t <= Now σ) then σ else setNow t (fst st))
              else Some (roleNameResponse rt ip err st)
          | None => Some (roleNameResponse rt ip err st)
          end
      end
  end.

(** The time since the start of the loop at which the [n]-th lookup starts
    and ends when all the lookups before it failed and the strategy did
    not stop. *)
Fixpoint attemptStart (tm : Timing) (n : nat) : Z :=
  match n with
  | O => 0
  | S n => attemptStart tm n + latency tm n + draw tm n
  end.

Definition attemptEnd (tm : Timing) (n : nat) : Z :=
  attemptStart tm n + latency tm n.

(** A lookup resolves the IP when it returns a role, not empty, and no
    error. *)
Definition resolved (r : string * option error) : Prop :=
  snd r = None /\ fst r <> EmptyString.

(** The role-name endpoint as it is served. *)
Definition serveRoleName (rt : Runtime) (tm : Timing) (fuel : nat) (s : Server)
    (req : Request) (σ : World) : option (Outcome * World) :=
  errorResponse rt "roleName" <$> roleNameHandler rt tm fuel s req σ.

(** ** pkg/server/server.go: the gRPC server

    [k.pods] is the pod cache: the answer of its [n]-th lookup for an IP
    (nil pod and nil error when it knows no pod with that IP).
    [k8s.PodRole], which reads the role annotation of a pod, is a parameter.
    [GetPodRole] is given the number of lookups the cache has served and
    returns the number it has served afterwards with its result. *)

Module server.

Record pb_Role := { Name : string }.

Record pb_Credentials := {
  pb_Code : string;
  pb_Type : string;
  pb_AccessKeyId : string;
  pb_SecretAccessKey : string;
  pb_Token : string;
  pb_Expiration : string;
  pb_LastUpdated : string;
}.

Record KiamServer (Pod : Type) := {
  pods : nat -> string -> option Pod * option error;
  credentialsProvider : string -> option Credentials * option error;
}.
Arguments pods {Pod} _ _ _.
Arguments credentialsProvider {Pod} _ _.

Definition GetPodRole {Pod : Type} (PodRole : Pod -> string) (k : KiamServer Pod)
    (served : nat) (ip : string) : (option pb_Role * option error) * nat :=
  let '(pod, err) := pods k served ip in
  let served := S served in
  match err with
  | Some e => ((None, Some e), served)
  | None =>
      match pod with
      | None => ((None, Some PodNotFoundError), served)
      | Some pod => ((Some {| Name := PodRole pod |}, None), served)
      end
  end.

Definition translateCredentialsToProto (credentials : Credentials) : pb_Credentials :=
  {| pb_Code := Code credentials;
     pb_Type := Type_ credentials;
     pb_AccessKeyId := AccessKeyId credentials;
     pb_SecretAccessKey := SecretAccessKey credentials;
     pb_Token := Token credentials;
     pb_Expiration := Expiration credentials;
     pb_LastUpdated := LastUpdated credentials |}.

(** The request message: [Role] is a pointer to a message, nil when the
    request carries none. *)
Record pb_GetRoleCredentialsRequest := { Role : option pb_Role }.

(** The result is [None] when the call panics on a nil pointer: the first
    statement reads [req.Role.Name], through [req.Role], before the provider
    is asked; and a provider that returns neither an error nor credentials
    makes [translateCredentialsToProto] read through a nil pointer. *)
Definition GetRoleCredentials {Pod : Type} (k : KiamServer Pod)
    (req : pb_GetRoleCredentialsRequest)
  : option (option pb_Credentials * option error) :=
  match Role req with
  | None => None
  | Some role =>
      let '(credentials, err) := credentialsProvider k (Name role) in
      match err with
      | Some e => Some (None, Some e)
      | None =>
          match credentials with
          | Some c => Some (Some (translateCredentialsToProto c), None)
          | None => None
          end
      end
  end.

End server.

(** ** pkg/testutil: stubFinder *)

Module testutil.

Record stubFinder (Pod : Type) := { pod : option Pod }.
Arguments pod {Pod} _.

Definition NewStubFinder {Pod : Type} (p : option Pod) : stubFinder Pod :=
  {| pod := p |}.

Definition FindPodForIP {Pod : Type} (f : stubFinder Pod) (ip : string)
  : option Pod * option error :=
  (pod f, None).

Definition FindRoleFromIP {Pod : Type} (PodRole : Pod -> string) (f : stubFinder Pod)
    (ip : string) : string * option error :=
  match pod f with
  | None => (EmptyString, None)
  | Some p => (PodRole p, None)
  end.

End testutil.

(** ** pkg/aws/sts: the credential cache

    Of the credential cache only its caller [GetRoleCredentials] is among
    the sources, so the cache is modelled from section 4.2 of the
    specification.  Callers run concurrently: a run is an interleaving of
    their atomic steps, given by a schedule. *)

Module sts.

(** Modelled from the spec: what the cache is configured with and calls
    (4.2, Issuance naming, and 4.5).  The role ARN is the base ARN followed
    by the role name and the session name is a constant; the gateway is
    opaque, [Issue arn session k] being the outcome of the [k]-th issuance
    (counted from 0) for that ARN.  A run takes no time: [unexpired] tells
    whether a record is still short of its expiry by the refresh margin,
    and [retryDue] whether the retry-after of an errored slot has passed. *)
Record Config := {
  RoleBaseARN : string;
  SessionName : string;
  Issue : string -> string -> nat -> Credentials + error;
  unexpired : Credentials -> bool;
  retryDue : error -> bool;
}.

(** Modelled from the spec: the slot of a role, which holds a valid record,
    the promise of an issuance in flight, or the error of a failed issuance
    with its retry-after; a role never asked for has no slot. *)
Inductive Slot : Type :=
  | Valid (record : Credentials)
  | Issuing
  | Errored (e : error).

(** Modelled from the spec: where a caller of [CredentialsForRole] stands.
    It has called and not looked the slot up yet, it waits on the promise
    of an issuance in flight, it has promoted the slot and its own call of
    the gateway is in flight, or it has its result. *)
Inductive Phase : Type :=
  | Calling
  | Waiting
  | Invoking
  | Received (result : Credentials + error).

(** Modelled from the spec: the cache with its callers.  The slots are
    keyed by role, [issued] lists the ARNs of the issuances made, in order,
    and each caller has the role it asks for and its phase. *)
Record Cache := {
  slots : gmap string Slot;
  issued : list string;
  callers : list (string * Phase);
}.

(** Modelled from the spec: the role ARN, the base ARN followed by the role
    name. *)
Definition roleARN (cf : Config) (role : string) : string :=
  RoleBaseARN cf +:+ role.

(** Modelled from the spec: the number of issuances made so far for an
    ARN. *)
Definition issuances (arn : string) (c : Cache) : nat :=
  length (filter (fun a => a = arn) (issued c)).

(** Modelled from the spec: completing the promise of [role] with
    [result].  The issuer and every caller attached to the promise receive
    it. *)
Definition complete (role : string) (result : Credentials + error)
    (cs : list (string * Phase)) : list (string * Phase) :=
  (fun c : string * Phase =>
     match c with
     | (r, Waiting) | (r, Invoking) =>
         if decide (r = role) then (r, Received result) else c
     | _ => c
     end) <$> cs.

(** Modelled from the spec: [CredentialsForRole] of the credential cache
    (pkg/aws/sts), of which only the caller [GetRoleCredentials] is among
    the sources; spec 4.2, Algorithm.  One atomic step of caller [i]:
    - a caller that looks the slot up gets the record of a valid, unexpired
      slot (1), attaches to the promise of an issuing slot (2), and
      otherwise promotes the slot to issuing and invokes the gateway (3);
      an errored slot makes its callers observe the error (4.2, Contract
      and Failure semantics) until its retry-after has passed;
    - the gateway call of the issuer returns: the slot becomes valid or
      errored and the promise is completed.
    A caller that waits or has its result takes no step. *)
Definition step (cf : Config) (i : nat) (c : Cache) : Cache :=
  match callers c !! i with
  | Some (role, Calling) =>
      match slots c !! role with
      | Some Issuing =>
          {| slots := slots c; issued := issued c;
             callers := <[i := (role, Waiting)]> (callers c) |}
      | Some (Valid record) =>
          if unexpired cf record then
            {| slots := slots c; issued := issued c;
               callers := <[i := (role, Received (inl record))]> (callers c) |}
          else
            {| slots := <[role := Issuing]> (slots c);
               issued := issued c ++ [roleARN cf role];
               callers := <[i := (role, Invoking)]> (callers c) |}
      | Some (Errored e) =>
          if retryDue cf e then
            {| slots := <[role := Issuing]> (slots c);
               issued := issued c ++ [roleARN cf role];
               callers := <[i := (role, Invoking)]> (callers c) |}
          else
            {| slots := slots c; issued := issued c;
               callers := <[i := (role, Received (inr e))]> (callers c) |}
      | None =>
          {| slots := <[role := Issuing]> (slots c);
             issued := issued c ++ [roleARN cf role];
             callers := <[i := (role, Invoking)]> (callers c) |}
      end
  | Some (role, Invoking) =>
      let result :=
        Issue cf (roleARN cf role) (SessionName cf)
          (issuances (roleARN cf role) c - 1) in
      {| slots := <[role := match result with
                            | inl record => Valid record
                            | inr e => Errored e
                            end]> (slots c);
         issued := issued c;
         callers := complete role result (callers c) |}
  | _ => c
  end.

(** Modelled from the spec: a run of concurrent callers.  The schedule
    names the caller that takes each step in turn. *)
Definition run (cf : Config) (schedule : list nat) (c : Cache) : Cache :=
  foldl (fun c i => step cf i c) c schedule.

(** Modelled from the spec: [n] callers of [CredentialsForRole(role)] on a
    cold cache. *)
Definition cold (n : nat) (role : string) : Cache :=
  {| slots := ∅; issued := []; callers := replicate n (role, Calling) |}.

(** Modelled from the spec: nothing expires during the run.  The record of
    the issuance stays short of its expiry, and the retry-after of a failed
    issuance does not pass. *)
Definition settled (cf : Config) (result : Credentials + error) : Prop :=
  match result with
  | inl record => unexpired cf record = true
  | inr e => retryDue cf e = false
  end.

(** Modelled from the spec: the slot that an issuance leaves behind. *)
Definition slotOf (result : Credentials + error) : Slot :=
  match result with
  | inl record => Valid record
  | inr e => Errored e
  end.

End sts.

(** ** The scenarios of the end-to-end tests

    Pod p1 has IP 10.0.0.5 and the role reader; requests come from
    10.0.0.5:40000.  The runtime sniffs text, as net/http does for a JSON
    document, and quotes strings that need no escape. *)

Module scenario.

Definition runtime : Runtime :=
  {| DetectContentType := fun _ => "text/plain; charset=utf-8";
     json_String := fun v => dquote +:+ v +:+ dquote |}.

Definition readerCredentials : Credentials :=
  {| Code := "Success"; Type_ := "AWS-HMAC"; AccessKeyId := "ASIAREADER";
     SecretAccessKey := "secret"; Token := "token";
     Expiration := "2017-12-01T12:00:00Z"; LastUpdated := "2017-12-01T11:00:00Z" |}.

(** Helpers that resolve 10.0.0.5 to reader, and whose provider answers
    [issued]; [ctxErr] is the state of the handler's context. *)
Definition helpers (issued : option Credentials * option error)
    (ctxErr : option error) : Helpers :=
  {| findRole := fun ip =>
       if decide (ip = "10.0.0.5") then ("reader", None) else (EmptyString, None);
     credentialsForRole := fun _ => issued;
     ctx_Err := ctxErr;
     EmptyRoleError := ErrVar "metadata.EmptyRoleError" "empty role" |}.

Definition granted : Helpers := helpers (Some readerCredentials, None) None.

(** An agent with the configuration [config] whose finder knows pod p1
    from its [known]-th lookup on. *)
Definition agent (config : ServerConfig) (known : nat) : Server :=
  {| cfg := config;
     finder := fun n ip =>
       if decide (ip = "10.0.0.5") then
         if (known <=? n)%nat then ("reader", None) else (EmptyString, None)
       else (EmptyString, None) |}.

Definition request (addr role : string) (ctx : Context) : Request :=
  {| RemoteAddr := addr; URLQuery := ∅; Form := ∅;
     Vars := {[ "role" := role ]}; Ctx := ctx |}.

(** [GET /latest/meta-data/iam/security-credentials/reader?ip=10.0.0.9]
    from 10.0.0.5:40000, to an agent that allows the query. *)
Definition debugConfig : ServerConfig :=
  {| ListenPort := 8181; MetadataEndpoint := "http://169.254.169.254";
     AllowIPQuery := true; MaxElapsedTime := Second * 10 |}.

Definition queryRequest : Request :=
  {| RemoteAddr := "10.0.0.5:40000"; URLQuery := {[ "ip" := "10.0.0.9" ]};
     Form := ∅; Vars := {[ "role" := "reader" ]}; Ctx := None |}.

(** A server whose pod cache knows pod p1 from its [known]-th lookup on;
    a pod is represented by its role annotation. *)
Definition kiamServer (known : nat) : server.KiamServer string :=
  {| server.pods := fun n ip =>
       if decide (ip = "10.0.0.5") then
         if (known <=? n)%nat then (Some "reader", None) else (None, None)
       else (None, None);
     server.credentialsProvider := fun _ => (Some readerCredentials, None) |}.

(** A credential cache for the account 123456789012, whose gateway issues
    a record with a key of its own at each issuance for reader and denies
    every other role; no record expires and no retry-after passes during a
    run. *)
Definition laterCredentials : Credentials :=
  {| Code := "Success"; Type_ := "AWS-HMAC"; AccessKeyId := "ASIALATER";
     SecretAccessKey := "secret2"; Token := "token2";
     Expiration := "2017-12-01T13:00:00Z"; LastUpdated := "2017-12-01T12:00:00Z" |}.

Definition cache : sts.Config :=
  {| sts.RoleBaseARN := "arn:aws:iam::123456789012:role/";
     sts.SessionName := "kiam-kiam";
     sts.Issue := fun arn _ k =>
       if decide (arn = "arn:aws:iam::123456789012:role/reader") then
         match k with
         | O => inl readerCredentials
         | S _ => inl laterCredentials
         end
       else inr (Errorf "AccessDenied");
     sts.unexpired := fun _ => true;
     sts.retryDue := fun _ => false |}.

(** Lookups take a millisecond; the strategy draws 500 ms, 750 ms, 1125 ms
    and so on, up to a minute. *)
Fixpoint grow (n : nat) (d : Z) : Z :=
  match n with
  | O => d
  | S n => Z.min (60 * Second) (grow n d * 3 / 2)
  end.

Definition timing : Timing :=
  {| latency := fun _ => Millisecond; draw := fun n => grow n (500 * Millisecond) |}.

End scenario.

(** ** Further scenarios

    A finder that refuses every lookup with [ErrPolicyForbidden], behind the
    helpers of the credentials handler and behind an agent; an agent
    without a budget; an agent whose finder is the stub of the tests. *)

Module cases.

Definition refusing : Helpers :=
  {| findRole := fun _ => ("reader", Some ErrPolicyForbidden);
     credentialsForRole := fun _ => (Some scenario.readerCredentials, None);
     ctx_Err := None;
     EmptyRoleError := ErrVar "metadata.EmptyRoleError" "empty role" |}.

Definition refusingAgent : Server :=
  {| cfg := NewConfig 8181;
     finder := fun _ _ => (EmptyString, Some ErrPolicyForbidden) |}.

(** An agent without a budget: [MaxElapsedTime] is 0.  Its finder knows
    pod p1 only. *)
Definition unboundedAgent : Server :=
  {| cfg := {| ListenPort := 8181; MetadataEndpoint := "http://169.254.169.254";
               AllowIPQuery := false; MaxElapsedTime := 0 |};
     finder := finder (scenario.agent (NewConfig 8181) 0) |}.

(** An agent whose role finder is testutil's stub. *)
Definition stubAgent {Pod : Type} (config : ServerConfig) (PodRole : Pod -> string)
    (f : testutil.stubFinder Pod) : Server :=
  {| cfg := config;
     finder := fun _ ip => testutil.FindRoleFromIP PodRole f ip |}.

End cases.

(** * Properties of the embedding

    ** Split, Join and ParseClientIP *)

Lemma append_String (a : ascii) (s t : string) :
  String a s +:+ t = String a (s +:+ t).
Proof. reflexivity. Qed.

Lemma append_Empty_l (t : string) : EmptyString +:+ t = t.
Proof. reflexivity. Qed.

Lemma append_Empty_r (s : string) : s +:+ EmptyString = s.
Proof. induction s as [|a s IH]; [reflexivity|]. rewrite append_String. by f_equal. Qed.

Lemma append_assoc (s t u : string) : (s +:+ t) +:+ u = s +:+ t +:+ u.
Proof. induction s as [|a s IH]; [reflexivity|]. rewrite !append_String. by f_equal. Qed.

Lemma Split_not_nil (s : string) (sep : ascii) : strings.Split s sep <> [].
Proof.
  destruct s as [|a rest]; simpl; [discriminate|].
  destruct (decide (a = sep)); [discriminate|].
  destruct (strings.Split rest sep); discriminate.
Qed.

Lemma Split_without_sep (s : string) (sep : ascii) :
  strings.ContainsByte s sep = false -> strings.Split s sep = [s].
Proof.
  induction s as [|a rest IH]; simpl; [reflexivity|].
  destruct (decide (a = sep)); [discriminate|].
  intros H. by rewrite (IH H).
Qed.

Lemma Split_with_sep (s : string) (sep : ascii) :
  strings.ContainsByte s sep = true -> (2 <= length (strings.Split s sep))%nat.
Proof.
  induction s as [|a rest IH]; simpl; [discriminate|].
  destruct (decide (a = sep)) as [_|_].
  - intros _. pose proof (Split_not_nil rest sep).
    destruct (strings.Split rest sep); [done|simpl; lia].
  - intros H. specialize (IH H).
    destruct (strings.Split rest sep); simpl in *; lia.
Qed.

Lemma Split_app (pre post : string) (sep : ascii) :
  strings.Split (pre +:+ String sep post) sep
  = strings.Split pre sep ++ strings.Split post sep.
Proof.
  induction pre as [|a pre IH].
  - rewrite append_Empty_l. simpl. by rewrite decide_True.
  - rewrite append_String. simpl.
    destruct (decide (a = sep)); [by rewrite IH|].
    rewrite IH. pose proof (Split_not_nil pre sep).
    destruct (strings.Split pre sep); [done|reflexivity].
Qed.

Lemma Join_Split (s : string) (sep : ascii) :
  strings.Join (strings.Split s sep) (String sep EmptyString) = s.
Proof.
  induction s as [|a rest IH]; [reflexivity|].
  simpl. pose proof (Split_not_nil rest sep) as Hne.
  destruct (decide (a = sep)) as [->|Hne'].
  - destruct (strings.Split rest sep) as [|p ps] eqn:E; [done|].
    change (strings.Join (EmptyString :: p :: ps) (String sep EmptyString))
      with (EmptyString +:+ String sep EmptyString +:+ strings.Join (p :: ps) (String sep EmptyString)).
    rewrite IH. reflexivity.
  - destruct (strings.Split rest sep) as [|p ps] eqn:E; [done|].
    destruct ps as [|q qs].
    + simpl in *. by rewrite IH.
    + change (strings.Join (String a p :: q :: qs) (String sep EmptyString))
        with (String a p +:+ String sep EmptyString +:+ strings.Join (q :: qs) (String sep EmptyString)).
      change (strings.Join (p :: q :: qs) (String sep EmptyString))
        with (p +:+ String sep EmptyString +:+ strings.Join (q :: qs) (String sep EmptyString)) in IH.
      rewrite append_String. by rewrite IH.
Qed.

(** A string that contains the separator splits at its last occurrence. *)
Lemma last_sep (s : string) (sep : ascii) :
  strings.ContainsByte s sep = true ->
  exists pre post,
    s = pre +:+ String sep post /\ strings.ContainsByte post sep = false.
Proof.
  induction s as [|a rest IH]; simpl; [discriminate|].
  destruct (strings.ContainsByte rest sep) eqn:E.
  - intros _. destruct (IH eq_refl) as (pre & post & -> & Hpost).
    exists (String a pre), post. by rewrite append_String.
  - destruct (decide (a = sep)) as [->|]; [|discriminate].
    intros _. exists EmptyString, rest. by rewrite append_Empty_l.
Qed.

Lemma ParseClientIP_last_colon (pre post : string) :
  strings.ContainsByte post colon = false ->
  ParseClientIP (pre +:+ String colon post) = (pre, None).
Proof.
  intros Hpost. unfold ParseClientIP.
  rewrite Split_app, (Split_without_sep post colon Hpost).
  pose proof (Split_not_nil pre colon) as Hne.
  rewrite length_app. simpl length.
  destruct (Nat.ltb_spec (length (strings.Split pre colon) + 1) 2) as [Hlt|_].
  { destruct (strings.Split pre colon); [done|simpl in Hlt; lia]. }
  replace (length (strings.Split pre colon) + 1 - 1)%nat
    with (length (strings.Split pre colon)) by lia.
  rewrite take_app_length. f_equal. exact (Join_Split pre colon).
Qed.

Lemma ParseClientIP_no_colon (addr : string) :
  strings.ContainsByte addr colon = false ->
  ParseClientIP addr =
    (EmptyString,
     Some (Errorf ("incorrect format, expected ip:port, was: " +:+ addr))).
Proof.
  intros H. unfold ParseClientIP. by rewrite (Split_without_sep addr colon H).
Qed.

Lemma ParseClientIP_error_iff (addr : string) :
  snd (ParseClientIP addr) <> None <-> strings.ContainsByte addr colon = false.
Proof.
  split.
  - destruct (strings.ContainsByte addr colon) eqn:E; [|done].
    destruct (last_sep addr colon E) as (pre & post & -> & Hpost).
    rewrite (ParseClientIP_last_colon pre post Hpost). simpl. done.
  - intros H. rewrite (ParseClientIP_no_colon addr H). simpl. done.
Qed.

(** ** The client IP *)

Lemma Server_clientIP_RemoteAddr (s : Server) (req : Request) :
  Server_clientIP s req = ParseClientIP (RemoteAddr req).
Proof. unfold Server_clientIP. by destruct (AllowIPQuery (cfg s)). Qed.

Lemma Server_clientIP_ParseForm (s : Server) (req : Request) :
  Server_clientIP s (ParseForm req) = Server_clientIP s req.
Proof. by rewrite !Server_clientIP_RemoteAddr. Qed.

Lemma buildClientIP_flag_off (config : ServerConfig) (req : Request) :
  AllowIPQuery config = false ->
  buildClientIP config req = ParseClientIP (RemoteAddr req).
Proof. intros H. unfold buildClientIP. by rewrite H. Qed.

Lemma buildClientIP_no_parameter (config : ServerConfig) (req : Request) :
  Get (Form req) "ip" = EmptyString ->
  buildClientIP config req = ParseClientIP (RemoteAddr req).
Proof.
  intros H. unfold buildClientIP. rewrite H.
  destruct (AllowIPQuery config); [|done]. by rewrite decide_False by auto.
Qed.

Lemma buildClientIP_override (config : ServerConfig) (req : Request) :
  AllowIPQuery config = true ->
  Get (Form req) "ip" <> EmptyString ->
  buildClientIP config req = (Get (Form req) "ip", None).
Proof. intros H Hip. unfold buildClientIP. rewrite H. by rewrite decide_True. Qed.

(** ** The response to a handler's error *)

Definition plainTextHeader : gmap string string :=
  <["X-Content-Type-Options" := "nosniff"]>
    (<["Content-Type" := "text/plain; charset=utf-8"]> ∅).

Lemma plainTextHeader_Content_Type :
  plainTextHeader !! "Content-Type" = Some "text/plain; charset=utf-8".
Proof. reflexivity. Qed.

Lemma errorResponse_of_error (rt : Runtime) (name : string) (status : Z)
    (e : error) (σ : World) :
  W σ = NewResponseWriter None ->
  response (errorResponse rt name (Returned status (Some e), σ))
  = Some {| StatusCode := status;
            Header := plainTextHeader;
            ResponseBody := Error e +:+ LF |}.
Proof. destruct σ as [w tr now]. simpl. intros ->. reflexivity. Qed.

Lemma errorResponse_trace (rt : Runtime) (name : string) (status : Z)
    (err : option error) (σ : World) :
  Trace (snd (errorResponse rt name (Returned status err, σ)))
  = Trace σ ++ [MeterMark (getResponseMeter name status)].
Proof. unfold errorResponse. by destruct err. Qed.

Lemma errorResponse_outcome (rt : Runtime) (name : string) (r : Outcome * World) :
  fst (errorResponse rt name r) = fst r.
Proof. destruct r as [[status [e|]|reason] σ]; reflexivity. Qed.

(** The calls of the credentials provider in a trace. *)
Fixpoint providerCalls (t : list Event) : nat :=
  match t with
  | [] => 0
  | CredentialsForRoleCall _ :: t => S (providerCalls t)
  | _ :: t => providerCalls t
  end.

Lemma providerCalls_app (t u : list Event) :
  providerCalls (t ++ u) = (providerCalls t + providerCalls u)%nat.
Proof.
  induction t as [|e t IH]; [reflexivity|].
  destruct e; simpl; rewrite IH; reflexivity.
Qed.

(** ** The credentials handler, branch by branch *)

Section credentials.
Context (rt : Runtime) (h : Helpers) (s : Server) (req : Request) (σ : World).



Lemma credentialsHandler_empty_role (ip : string) :
  Server_clientIP s req = (ip, None) ->
  findRole h ip = (EmptyString, None) ->
  credentialsHandler rt h s req σ
  = (Returned StatusNotFound (Some (EmptyRoleError h)),
     emit (MeterMark "credentialsHandler.emptyRole") (emit (FindRoleCall ip) σ)).
Proof.
  intros H Hrole. unfold credentialsHandler.
  rewrite Server_clientIP_ParseForm, H, Hrole. reflexivity.
Qed.

Lemma credentialsHandler_no_role_requested (ip foundRole : string) :
  Server_clientIP s req = (ip, None) ->
  findRole h ip = (foundRole, None) ->
  foundRole <> EmptyString ->
  Get (Vars req) "role" = EmptyString ->
  credentialsHandler rt h s req σ
  = (Returned StatusBadRequest (Some (Errorf "no role specified")),
     emit (FindRoleCall ip) σ).
Proof.
  intros H Hrole Hne Hreq. unfold credentialsHandler.
  rewrite Server_clientIP_ParseForm, H, Hrole.
  rewrite decide_False by done. cbn [Vars ParseForm]. rewrite Hreq.
  reflexivity.
Qed.

Lemma credentialsHandler_mismatch (ip foundRole : string) :
  Server_clientIP s req = (ip, None) ->
  findRole h ip = (foundRole, None) ->
  foundRole <> EmptyString ->
  Get (Vars req) "role" <> EmptyString ->
  foundRole <> Get (Vars req) "role" ->
  credentialsHandler rt h s req σ
  = (Returned StatusForbidden
       (Some (Errorf ("unable to assume role " +:+ Get (Vars req) "role"
                      +:+ ", role on pod specified is " +:+ foundRole))),
     emit (FindRoleCall ip) σ).
Proof.
  intros H Hrole Hne Hreq Hdiff. unfold credentialsHandler.
  rewrite Server_clientIP_ParseForm, H, Hrole.
  rewrite decide_False by done. cbn [Vars ParseForm].
  rewrite decide_False by done. rewrite decide_True by done.
  reflexivity.
Qed.

Lemma credentialsHandler_provider_error (ip role : string)
    (c : option Credentials) (e : error) :
  Server_clientIP s req = (ip, None) ->
  findRole h ip = (role, None) ->
  role <> EmptyString ->
  Get (Vars req) "role" = role ->
  credentialsForRole h role = (c, Some e) ->
  credentialsHandler rt h s req σ
  = (match ctx_Err h with
     | Some ce =>
         Returned StatusInternalServerError
           (Some (Errorf ("unexpected error: " +:+ Error ce)))
     | None => Panicked nilDereference
     end,
     emit (CredentialsForRoleCall role) (emit (FindRoleCall ip) σ)).
Proof.
  intros H Hrole Hne Hreq Hcreds. unfold credentialsHandler.
  rewrite Server_clientIP_ParseForm, H, Hrole.
  rewrite decide_False by done. cbn [Vars ParseForm]. rewrite Hreq.
  rewrite decide_False by done. rewrite decide_False by auto.
  rewrite Hcreds. by destruct (ctx_Err h).
Qed.

Lemma credentialsHandler_success (ip role : string) (c : option Credentials) :
  W σ = NewResponseWriter None ->
  Server_clientIP s req = (ip, None) ->
  findRole h ip = (role, None) ->
  role <> EmptyString ->
  Get (Vars req) "role" = role ->
  credentialsForRole h role = (c, None) ->
  credentialsHandler rt h s req σ
  = (Returned StatusOK None,
     emit (MeterMark "credentialsHandler.success")
       (setW
          {| HandlerHeader := <["Content-Type" := "application/json"]> ∅;
             WroteHeader := true;
             Status := StatusOK;
             SentHeader :=
               <["Content-Type" := DetectContentType rt (json_Marshal rt c +:+ LF)]> ∅;
             Body := json_Marshal rt c +:+ LF;
             ConnErr := None |}
          (emit (CredentialsForRoleCall role) (emit (FindRoleCall ip) σ)))).
Proof.
  intros Hw H Hrole Hne Hreq Hcreds. unfold credentialsHandler.
  rewrite Server_clientIP_ParseForm, H, Hrole.
  rewrite decide_False by done. cbn [Vars ParseForm]. rewrite Hreq.
  rewrite decide_False by done. rewrite decide_False by auto.
  rewrite Hcreds. cbn [emit W]. rewrite Hw. reflexivity.
Qed.

End credentials.

Lemma Contains_prefix (prefix rest : string) :
  strings.Contains (prefix +:+ rest) prefix.
Proof. exists EmptyString, rest. reflexivity. Qed.

(** ** The retry loop *)

Section retry.
Context {St : Type} (clock : St -> Z) (sleepUntil : Z -> St -> St).
Context (operation : nat -> St -> option error * St).
Context (b : backoff.ExponentialBackOff) (ctx : Context) (start : Z).
Hypothesis clock_sleepUntil : forall t st, clock (sleepUntil t st) = t.

Abbreviation Retry := (backoff.Retry clock sleepUntil operation b ctx start).

Lemma NextBackOff_Stop (n : nat) (elapsed : Z) :
  backoff.NextBackOff b n elapsed = None <->
  backoff.MaxElapsedTime b <> 0 /\ backoff.MaxElapsedTime b < elapsed.
Proof.
  unfold backoff.NextBackOff.
  destruct (bool_decide_reflect (backoff.MaxElapsedTime b <> 0));
    destruct (bool_decide_reflect (backoff.MaxElapsedTime b < elapsed));
    simpl; split; try done; intros [? ?]; done.
Qed.

Lemma NextBackOff_interval (n : nat) (elapsed next : Z) :
  backoff.NextBackOff b n elapsed = Some next -> next = backoff.Interval b n.
Proof.
  unfold backoff.NextBackOff.
  destruct (_ && _); [discriminate|]. by intros [= <-].
Qed.

Lemma Retry_S (fuel n : nat) (st : St) :
  Retry (S fuel) n st
  = match operation n st with
    | (None, st) => Some (None, st)
    | (Some e, st) =>
        if ctxDone ctx (clock st) then Some (Some e, st)
        else
          match backoff.NextBackOff b n (clock st - start) with
          | None => Some (Some e, st)
          | Some next =>
              match ctx with
              | Some (t, _) =>
                  if bool_decide (t <= clock st + next)
                  then Some (Some e, sleepUntil t st)
                  else Retry fuel (S n) (sleepUntil (clock st + next) st)
              | None => Retry fuel (S n) (sleepUntil (clock st + next) st)
              end
          end
    end.
Proof. simpl. destruct (operation n st) as [[e|] st1]; reflexivity. Qed.

(** More fuel does not change a result. *)
Lemma Retry_more_fuel (fuel more n : nat) (st : St) (r : option error * St) :
  Retry fuel n st = Some r -> Retry (fuel + more) n st = Some r.
Proof.
  revert n st. induction fuel as [|fuel IH]; intros n st; simpl; [discriminate|].
  destruct (operation n st) as [[e|] st1]; [|done].
  destruct (ctxDone ctx (clock st1)); [done|].
  destruct (backoff.NextBackOff b n (clock st1 - start)) as [next|]; [|done].
  destruct ctx as [[t ce]|]; [destruct (bool_decide (t <= clock st1 + next)); [done|]|];
    apply IH.
Qed.

(** [Retry] returns an error to a context that is not done only when the
    strategy stopped: more than [MaxElapsedTime] has passed. *)
Lemma Retry_error_after_budget (fuel n : nat) (st st' : St) (e : error) :
  Retry fuel n st = Some (Some e, st') ->
  ctxDone ctx (clock st') = false ->
  backoff.MaxElapsedTime b < clock st' - start.
Proof.
  revert n st. induction fuel as [|fuel IH]; intros n st; simpl; [discriminate|].
  destruct (operation n st) as [[e1|] st1]; [|discriminate].
  destruct (ctxDone ctx (clock st1)) eqn:Hdone.
  { intros [= <- <-] Hnot. congruence. }
  destruct (backoff.NextBackOff b n (clock st1 - start)) as [next|] eqn:Hnext.
  - destruct ctx as [[t ce]|]; [|apply IH].
    destruct (bool_decide (t <= clock st1 + next)); [|apply IH].
    intros [= <- <-] Hnot. simpl in Hnot.
    rewrite clock_sleepUntil in Hnot.
    apply bool_decide_eq_false in Hnot. lia.
  - intros [= <- <-] _. by apply NextBackOff_Stop in Hnext as [_ ?].
Qed.

End retry.

(** ** The role-name handler *)

Section role_name.
Context (rt : Runtime) (tm : Timing) (s : Server) (ip : string).

Definition strategyOf : backoff.ExponentialBackOff :=
  backoff.setMaxElapsedTime (MaxElapsedTime (cfg s))
    (backoff.NewExponentialBackOff (draw tm)).

Abbreviation Retry ctx start :=
  (backoff.Retry roleClock roleSleepUntil (roleOp tm s ip) strategyOf ctx start).

Lemma roleClock_sleepUntil (t : Z) (st : RoleState) :
  roleClock (roleSleepUntil t st) = t.
Proof. reflexivity. Qed.

Lemma roleOp_eq (n : nat) (σ : World) (roleCh : option string) :
  roleOp tm s ip n (σ, roleCh)
  = match finder s n ip with
    | (_, Some e) =>
        (Some e, (setNow (Now σ + latency tm n) (emit (FindRoleCall ip) σ), roleCh))
    | (role, None) =>
        if decide (role = EmptyString) then
          (Some PodNotFound,
           (setNow (Now σ + latency tm n) (emit (FindRoleCall ip) σ), roleCh))
        else
          (None,
           (setNow (Now σ + latency tm n) (emit (FindRoleCall ip) σ), Some role))
    end.
Proof. unfold roleOp. by destruct (finder s n ip) as [role [e|]]. Qed.

(** When the loop returns nil, the operation has put a role, which is not
    empty, into [roleCh]. *)
Lemma Retry_nil_fills_roleCh (ctx : Context) (start : Z) (fuel n : nat)
    (st st' : RoleState) :
  Retry ctx start fuel n st = Some (None, st') ->
  exists role, snd st' = Some role /\ role <> EmptyString.
Proof.
  revert n st. induction fuel as [|fuel IH]; intros n [σ roleCh]; [discriminate|].
  rewrite Retry_S, roleOp_eq.
  assert (Hfail : forall (e : error) (st1 : RoleState),
            (if ctxDone ctx (roleClock st1) then Some (Some e, st1)
             else
               match backoff.NextBackOff strategyOf n (roleClock st1 - start) with
               | None => Some (Some e, st1)
               | Some next =>
                   match ctx with
                   | Some (t, _) =>
                       if bool_decide (t <= roleClock st1 + next)
                       then Some (Some e, roleSleepUntil t st1)
                       else Retry ctx start fuel (S n)
                              (roleSleepUntil (roleClock st1 + next) st1)
                   | None =>
                       Retry ctx start fuel (S n)
                         (roleSleepUntil (roleClock st1 + next) st1)
                   end
               end) = Some (None, st') ->
            exists role, snd st' = Some role /\ role <> EmptyString).
  { intros e st1.
    destruct (ctxDone ctx (roleClock st1)); [discriminate|].
    destruct (backoff.NextBackOff strategyOf n (roleClock st1 - start)) as [next|];
      [|discriminate].
    destruct ctx as [[t ce]|]; [|apply IH].
    destruct (bool_decide (t <= roleClock st1 + next)); [discriminate|apply IH]. }
  destruct (finder s n ip) as [role [e|]]; [apply Hfail|].
  destruct (decide (role = EmptyString)) as [->|Hne]; [apply Hfail|].
  intros [= <-]. by exists role.
Qed.

(** While no pod is known for [ip] and the context stays live, the loop
    makes one lookup after the other and gives up with [PodNotFound] once
    the budget is used up; [fuel] above what is left of the budget, counted
    in nanoseconds, is enough. *)
Lemma Retry_no_pod (start : Z) (fuel n : nat) (σ : World) (roleCh : option string) :
  (forall n, finder s n ip = (EmptyString, None)) ->
  MaxElapsedTime (cfg s) <> 0 ->
  (forall n, 0 <= latency tm n) ->
  (forall n, 0 < draw tm n) ->
  (Z.to_nat (MaxElapsedTime (cfg s) + 1 - (Now σ - start)) < fuel)%nat ->
  exists σ' k,
    Retry None start fuel n (σ, roleCh) = Some (Some PodNotFound, (σ', roleCh))
    /\ MaxElapsedTime (cfg s) < Now σ' - start
    /\ W σ' = W σ
    /\ Trace σ' = Trace σ ++ replicate (S k) (FindRoleCall ip).
Proof.
  intros Hnone Hbudget Hlat Hdraw.
  revert n σ. induction fuel as [|fuel IH]; intros n σ Hfuel; [lia|].
  rewrite Retry_S, roleOp_eq, Hnone. rewrite decide_True by done.
  cbn [ctxDone roleClock fst setNow Now].
  destruct (backoff.NextBackOff strategyOf n (Now σ + latency tm n - start))
    as [next|] eqn:Hnext.
  - assert (Hin : Now σ + latency tm n - start <= MaxElapsedTime (cfg s)).
    { destruct (Z_le_gt_dec (Now σ + latency tm n - start) (MaxElapsedTime (cfg s)))
        as [|Hgt]; [done|].
      assert (backoff.NextBackOff strategyOf n (Now σ + latency tm n - start) = None)
        as Hstop by (apply NextBackOff_Stop; split; [done|simpl; lia]).
      congruence. }
    apply NextBackOff_interval in Hnext. simpl in Hnext. subst next.
    pose proof (Hlat n). pose proof (Hdraw n).
    destruct (IH (S n)
                (setNow (Now σ + latency tm n + draw tm n)
                   (setNow (Now σ + latency tm n) (emit (FindRoleCall ip) σ))))
      as (σ' & k & Hrun & Hlate & Hw & Htrace).
    { cbn [setNow Now]. lia. }
    exists σ', (S k). split; [exact Hrun|]. split; [exact Hlate|].
    split; [exact Hw|]. rewrite Htrace. cbn [setNow emit Trace].
    rewrite <- app_assoc. reflexivity.
  - apply NextBackOff_Stop in Hnext as [_ Hlate]. simpl in Hlate.
    eexists _, 0%nat. split; [reflexivity|]. cbn [setNow Now emit W Trace].
    split; [lia|]. done.
Qed.

Lemma roleNameHandler_live (fuel : nat) (req : Request) (σ : World) :
  Server_clientIP s req = (ip, None) ->
  Ctx req = None ->
  roleNameHandler rt tm fuel s req σ
  = match Retry None (Now σ) fuel 0%nat (σ, None) with
    | None => None
    | Some (err, st) => Some (roleNameResponse rt ip err st)
    end.
Proof.
  intros Hip Hctx. unfold roleNameHandler. rewrite Hip, Hctx.
  reflexivity.
Qed.

Lemma NextBackOff_go (b : backoff.ExponentialBackOff) (n : nat) (elapsed : Z) :
  backoff.MaxElapsedTime b = 0 \/ elapsed <= backoff.MaxElapsedTime b ->
  backoff.NextBackOff b n elapsed = Some (backoff.Interval b n).
Proof.
  intros H. destruct (backoff.NextBackOff b n elapsed) as [next|] eqn:Hnext.
  - by rewrite (NextBackOff_interval b n elapsed next Hnext).
  - apply NextBackOff_Stop in Hnext. lia.
Qed.

(** While the lookups fail within the budget the loop goes on, and it ends
    with the first lookup that resolves the IP. *)
Lemma Retry_until_resolved (start : Z) (role : string) (m n : nat) (σ : World)
    (roleCh : option string) :
  Now σ = start + attemptStart tm n ->
  (forall j, (n <= j < n + m)%nat -> ~ resolved (finder s j ip)) ->
  finder s (n + m)%nat ip = (role, None) ->
  role <> EmptyString ->
  (forall j, (n <= j < n + m)%nat ->
     MaxElapsedTime (cfg s) = 0 \/ attemptEnd tm j <= MaxElapsedTime (cfg s)) ->
  exists σ',
    Retry None start (S m) n (σ, roleCh) = Some (None, (σ', Some role))
    /\ W σ' = W σ
    /\ Trace σ' = Trace σ ++ replicate (S m) (FindRoleCall ip)
    /\ Now σ' = start + attemptEnd tm (n + m)%nat.
Proof.
  revert n σ. induction m as [|m IH]; intros n σ Hnow Hfail Hfound Hrole Hbudget.
  - rewrite Nat.add_0_r in *. rewrite Retry_S, roleOp_eq, Hfound.
    rewrite decide_False by done. eexists. split; [reflexivity|].
    cbn [setNow emit W Trace Now]. unfold attemptEnd. repeat split. lia.
  - assert (Hgo : forall (e : error),
              Retry None start (S (S m)) n (σ, roleCh)
              = Retry None start (S m) (S n)
                  (setNow (Now σ + latency tm n + draw tm n)
                     (setNow (Now σ + latency tm n) (emit (FindRoleCall ip) σ)),
                   roleCh) ->
              exists σ',
                Retry None start (S (S m)) n (σ, roleCh) = Some (None, (σ', Some role))
                /\ W σ' = W σ
                /\ Trace σ' = Trace σ ++ replicate (S (S m)) (FindRoleCall ip)
                /\ Now σ' = start + attemptEnd tm (n + S m)%nat).
    { intros _ ->.
      destruct (IH (S n)
                  (setNow (Now σ + latency tm n + draw tm n)
                     (setNow (Now σ + latency tm n) (emit (FindRoleCall ip) σ))))
        as (σ' & Hrun & Hw & Htrace & Hend).
      - cbn [setNow Now attemptStart]. lia.
      - intros j Hj. apply Hfail. lia.
      - by rewrite Nat.add_succ_comm.
      - done.
      - intros j Hj. apply Hbudget. lia.
      - exists σ'. split; [exact Hrun|]. split; [exact Hw|].
        split; [|by rewrite <- Nat.add_succ_comm].
        rewrite Htrace. cbn [setNow emit Trace]. by rewrite <- app_assoc. }
    assert (Hnext : backoff.NextBackOff strategyOf n (Now σ + latency tm n - start)
                    = Some (draw tm n)).
    { apply NextBackOff_go. simpl.
      replace (Now σ + latency tm n - start) with (attemptEnd tm n)
        by (unfold attemptEnd; lia).
      apply Hbudget. lia. }
    assert (Hnot : ~ resolved (finder s n ip)) by (apply Hfail; lia).
    apply (Hgo PodNotFound).
    rewrite Retry_S, roleOp_eq.
    destruct (finder s n ip) as [r [e|]].
    + cbn [ctxDone roleClock fst setNow Now]. by rewrite Hnext.
    + destruct (decide (r = EmptyString)) as [->|Hne].
      * cbn [ctxDone roleClock fst setNow Now]. by rewrite Hnext.
      * exfalso. apply Hnot. by split.
Qed.

End role_name.

Section role_name_handler.
Context (rt : Runtime) (tm : Timing) (s : Server).

Lemma roleNameHandler_more_fuel (fuel more : nat) (req : Request) (σ : World)
    (r : Outcome * World) :
  roleNameHandler rt tm fuel s req σ = Some r ->
  roleNameHandler rt tm (fuel + more) s req σ = Some r.
Proof.
  unfold roleNameHandler.
  destruct (Server_clientIP s req) as [ip' [e|]]; [done|].
  match goal with
  | |- context [backoff.Retry ?c ?sl ?op ?b ?cx ?st fuel ?n ?x] =>
      destruct (backoff.Retry c sl op b cx st fuel n x) as [[err st']|] eqn:Hrun;
      [|discriminate];
      rewrite (Retry_more_fuel c sl op b cx st fuel more n x _ Hrun)
  end.
  done.
Qed.

(** The handler answers 404 only when the loop gave up on a context that is
    not done, that is, when the budget was used up. *)
Lemma roleNameHandler_404_after_budget (fuel : nat) (req : Request) (σ σ' : World)
    (err : option error) :
  roleNameHandler rt tm fuel s req σ = Some (Returned StatusNotFound err, σ') ->
  MaxElapsedTime (cfg s) < Now σ' - Now σ.
Proof.
  unfold roleNameHandler.
  destruct (Server_clientIP s req) as [ip' [e|]]; [discriminate|].
  match goal with
  | |- context [backoff.Retry ?c ?sl ?op ?b ?cx ?st fuel ?n ?x] =>
      destruct (backoff.Retry c sl op b cx st fuel n x) as [[err0 [σ1 roleCh]]|] eqn:Hrun;
      [|discriminate]
  end.
  assert (Hresp : ctxDone (Ctx req) (Now σ1) = false ->
                  Some (roleNameResponse rt ip' err0 (σ1, roleCh))
                  = Some (Returned StatusNotFound err, σ') ->
                  MaxElapsedTime (cfg s) < Now σ' - Now σ).
  { intros Hlive. unfold roleNameResponse.
    destruct err0 as [e0|].
    - pose proof (Retry_error_after_budget roleClock roleSleepUntil _ _ _ _
                    (fun _ _ => eq_refl) _ _ _ _ _ Hrun Hlive) as Hlate.
      simpl in Hlate.
      destruct (is_var "metadata.PodNotFound" (Some e0)); [|discriminate].
      intros [= _ <-]. exact Hlate.
    - destruct (Retry_nil_fills_roleCh _ _ _ _ _ _ _ _ _ Hrun) as (role & Hch & Hne).
      simpl in Hch. subst roleCh. simpl.
      rewrite decide_False by done.
      destruct (Write rt role (W σ1)). discriminate. }
  destruct (Ctx req) as [[t ce]|]; [|by apply Hresp].
  simpl in Hresp. unfold roleClock. simpl.
  destruct (bool_decide (t <= Now σ1)); [discriminate|by apply Hresp].
Qed.

(** The handler returns 500, 404 or 200, and no other status. *)
Lemma roleNameResponse_statuses (ip : string) (err0 : option error) (st : RoleState)
    (status : Z) (err : option error) (σ' : World) :
  roleNameResponse rt ip err0 st = (Returned status err, σ') ->
  status = StatusInternalServerError \/ status = StatusNotFound \/ status = StatusOK.
Proof.
  destruct st as [σ1 roleCh]. unfold roleNameResponse.
  destruct (is_var "metadata.PodNotFound" err0); [intros [= <- _ _]; auto|].
  destruct err0 as [e0|]; [intros [= <- _ _]; auto|].
  destruct (decide (default EmptyString roleCh = EmptyString));
    [intros [= <- _ _]; auto|].
  destruct (Write rt (default EmptyString roleCh) (W σ1)).
  intros [= <- _ _]; auto.
Qed.

Lemma roleNameHandler_statuses (fuel : nat) (req : Request) (σ σ' : World)
    (status : Z) (err : option error) :
  roleNameHandler rt tm fuel s req σ = Some (Returned status err, σ') ->
  status = StatusInternalServerError \/ status = StatusNotFound \/ status = StatusOK.
Proof.
  unfold roleNameHandler.
  destruct (Server_clientIP s req) as [ip' [e|]]; [intros [= <- _ _]; auto|].
  match goal with
  | |- context [backoff.Retry ?c ?sl ?op ?b ?cx ?st fuel ?n ?x] =>
      destruct (backoff.Retry c sl op b cx st fuel n x) as [[err0 st']|];
      [|discriminate]
  end.
  destruct (Ctx req) as [[t ce]|].
  - destruct (bool_decide (t <= roleClock st')); [intros [= <- _ _]; auto|].
    intros [= H]. by apply roleNameResponse_statuses in H.
  - intros [= H]. by apply roleNameResponse_statuses in H.
Qed.

End role_name_handler.

Lemma grow_positive (n : nat) (d : Z) : 0 < d -> 0 < scenario.grow n d.
Proof.
  intros Hd. induction n as [|n IH]; simpl; [done|].
  apply Z.min_glb_lt; [done|].
  apply Z.div_str_pos. lia.
Qed.

(** ** The server's role lookup *)

Lemma GetPodRole_eq {Pod : Type} (PodRole : Pod -> string)
    (k : server.KiamServer Pod) (served : nat) (ip : string) :
  server.GetPodRole PodRole k served ip
  = (match server.pods k served ip with
     | (_, Some e) => (None, Some e)
     | (None, None) => (None, Some PodNotFoundError)
     | (Some pod, None) => (Some {| server.Name := PodRole pod |}, None)
     end, S served).
Proof.
  unfold server.GetPodRole.
  by destruct (server.pods k served ip) as [[pod|] [e|]].
Qed.

Lemma GetRoleCredentials_eq {Pod : Type} (k : server.KiamServer Pod) (role : string) :
  server.GetRoleCredentials k {| server.Role := Some {| server.Name := role |} |}
  = match server.credentialsProvider k role with
    | (_, Some e) => Some (None, Some e)
    | (Some c, None) => Some (Some (server.translateCredentialsToProto c), None)
    | (None, None) => None
    end.
Proof.
  unfold server.GetRoleCredentials. cbn [server.Role server.Name].
  by destruct (server.credentialsProvider k role) as [[c|] [e|]].
Qed.

(** The stub finder of the tests answers an IP it has no pod for with an
    empty role and no error. *)
Lemma stubFinder_without_pod {Pod : Type} (PodRole : Pod -> string) (ip : string) :
  testutil.FindRoleFromIP PodRole (testutil.NewStubFinder None) ip
  = (EmptyString, None)
  /\ testutil.FindPodForIP (testutil.NewStubFinder (Pod := Pod) None) ip
     = (None, None).
Proof. by split. Qed.

(** ** The credential cache: single flight *)

(** What a caller may be doing, by the state of the slot of its role, when
    the one issuance that is made gives [r0]. *)
Definition phase_ok (r0 : Credentials + error) (slot : option sts.Slot)
    (ph : sts.Phase) : Prop :=
  match slot with
  | None => ph = sts.Calling
  | Some sts.Issuing => ph = sts.Calling \/ ph = sts.Waiting \/ ph = sts.Invoking
  | Some _ => ph = sts.Calling \/ ph = sts.Received r0
  end.

Lemma slotOf_Valid (r : Credentials + error) (record : Credentials) :
  sts.Valid record = sts.slotOf r -> r = inl record.
Proof. destruct r; simpl; congruence. Qed.

Lemma slotOf_Errored (r : Credentials + error) (e : error) :
  sts.Errored e = sts.slotOf r -> r = inr e.
Proof. destruct r; simpl; congruence. Qed.

Lemma phase_ok_slotOf (r0 : Credentials + error) (ph : sts.Phase) :
  phase_ok r0 (Some (sts.slotOf r0)) ph <-> ph = sts.Calling \/ ph = sts.Received r0.
Proof. by destruct r0. Qed.

Lemma step_settled (cf : sts.Config) (r0 : Credentials + error) (i : nat)
    (c : sts.Cache) (role : string) :
  sts.settled cf r0 ->
  sts.callers c !! i = Some (role, sts.Calling) ->
  sts.slots c !! role = Some (sts.slotOf r0) ->
  sts.step cf i c
  = {| sts.slots := sts.slots c; sts.issued := sts.issued c;
       sts.callers := <[i := (role, sts.Received r0)]> (sts.callers c) |}.
Proof.
  intros H Hi Hs. unfold sts.step. rewrite Hi, Hs.
  destruct r0; simpl in *; by rewrite H.
Qed.

Section single_flight.
Context (cf : sts.Config) (R : string) (r0 : Credentials + error).
Hypothesis first_issuance :
  sts.Issue cf (sts.roleARN cf R) (sts.SessionName cf) 0 = r0.
Hypothesis no_expiry : sts.settled cf r0.

(** The invariant of the runs that start cold: the slot tells how many
    issuances were made and what the callers may be doing. *)
Definition single_flight_inv (c : sts.Cache) : Prop :=
  match sts.slots c !! R with
  | None => sts.issued c = []
  | Some sts.Issuing => sts.issued c = [sts.roleARN cf R]
  | Some slot => slot = sts.slotOf r0 /\ sts.issued c = [sts.roleARN cf R]
  end
  /\ Forall (fun x : string * sts.Phase =>
               fst x = R /\ phase_ok r0 (sts.slots c !! R) (snd x)) (sts.callers c).

Lemma issuances_one (c : sts.Cache) :
  sts.issued c = [sts.roleARN cf R] -> sts.issuances (sts.roleARN cf R) c = 1%nat.
Proof.
  intros H. unfold sts.issuances. rewrite H.
  rewrite filter_cons_True by done. reflexivity.
Qed.

Lemma inv_cold (n : nat) : single_flight_inv (sts.cold n R).
Proof.
  split; simpl; [by rewrite lookup_empty|].
  apply Forall_replicate. rewrite lookup_empty. by split.
Qed.

Lemma complete_ok (cs : list (string * sts.Phase)) :
  Forall (fun x : string * sts.Phase =>
            fst x = R /\ phase_ok r0 (Some sts.Issuing) (snd x)) cs ->
  Forall (fun x : string * sts.Phase =>
            fst x = R /\ phase_ok r0 (Some (sts.slotOf r0)) (snd x))
    (sts.complete R r0 cs).
Proof.
  intros H. unfold sts.complete. apply Forall_fmap.
  eapply Forall_impl; [exact H|].
  intros [r ph] [Hr Hph]. simpl in *. subst r.
  destruct Hph as [-> | [-> | ->]]; simpl; rewrite ?decide_True by done; simpl;
    (split; [done|]); apply phase_ok_slotOf; auto.
Qed.

Lemma inv_step (i : nat) (c : sts.Cache) :
  single_flight_inv c -> single_flight_inv (sts.step cf i c).
Proof.
  intros [Hslot Hcallers]. unfold sts.step.
  destruct (sts.callers c !! i) as [[role ph]|] eqn:Hi; [|by split].
  pose proof (Forall_lookup_1 _ _ _ _ Hcallers Hi) as [Hrole Hph].
  simpl in Hrole, Hph. subst role.
  destruct ph as [| | |result]; try by split.
  - (* the caller looks the slot up *)
    destruct (sts.slots c !! R) as [[record| |e]|] eqn:Hs.
    + destruct Hslot as [Hrec Hissued].
      pose proof (slotOf_Valid _ _ Hrec) as Hr0.
      pose proof no_expiry as Hfresh. rewrite Hr0 in Hfresh. simpl in Hfresh.
      rewrite Hfresh. split; simpl; rewrite Hs; [done|].
      apply Forall_insert; [done|]. split; [done|]. right. by rewrite Hr0.
    + split; simpl; rewrite Hs; [done|].
      apply Forall_insert; [done|]. split; [done|]. right. by left.
    + destruct Hslot as [Herr Hissued].
      pose proof (slotOf_Errored _ _ Herr) as Hr0.
      pose proof no_expiry as Hwait. rewrite Hr0 in Hwait. simpl in Hwait.
      rewrite Hwait. split; simpl; rewrite Hs; [done|].
      apply Forall_insert; [done|]. split; [done|]. right. by rewrite Hr0.
    + split; simpl; rewrite lookup_insert_eq; [by rewrite Hslot|].
      apply Forall_insert.
      * eapply Forall_impl; [exact Hcallers|].
        intros [r p] [Hr Hp]. simpl in *. split; [done|]. by left.
      * split; [done|]. right. by right.
  - (* the gateway call of the issuer returns *)
    destruct (sts.slots c !! R) as [[record| |e]|] eqn:Hs; simpl in Hph;
      try done; try (by destruct Hph as [?|?]).
    rewrite (issuances_one c Hslot). simpl. rewrite first_issuance.
    change (match r0 with
            | inl record => sts.Valid record
            | inr e => sts.Errored e
            end) with (sts.slotOf r0).
    assert (Hkind : match sts.slotOf r0 with
                    | sts.Issuing => sts.issued c = [sts.roleARN cf R]
                    | _ => sts.slotOf r0 = sts.slotOf r0
                           /\ sts.issued c = [sts.roleARN cf R]
                    end).
    { by destruct (sts.slotOf r0). }
    split; simpl; rewrite lookup_insert_eq; [exact Hkind|].
    by apply complete_ok.
Qed.

Lemma inv_run (schedule : list nat) (c : sts.Cache) :
  single_flight_inv c -> single_flight_inv (sts.run cf schedule c).
Proof.
  revert c. induction schedule as [|i schedule IH]; intros c Hc; [done|].
  simpl. apply IH. by apply inv_step.
Qed.

Lemma inv_issuances (c : sts.Cache) :
  single_flight_inv c -> (sts.issuances (sts.roleARN cf R) c <= 1)%nat.
Proof.
  intros [Hslot _]. unfold sts.issuances.
  destruct (sts.slots c !! R) as [[record| |e]|].
  - destruct Hslot as [_ ->]. rewrite filter_cons_True by done. done.
  - rewrite Hslot. rewrite filter_cons_True by done. done.
  - destruct Hslot as [_ ->]. rewrite filter_cons_True by done. done.
  - rewrite Hslot. simpl. lia.
Qed.

Lemma inv_received (c : sts.Cache) (i : nat) (role : string)
    (result : Credentials + error) :
  single_flight_inv c ->
  sts.callers c !! i = Some (role, sts.Received result) ->
  result = r0.
Proof.
  intros [_ Hcallers] Hi.
  pose proof (Forall_lookup_1 _ _ _ _ Hcallers Hi) as [_ Hph]. simpl in Hph.
  destruct (sts.slots c !! R) as [[record| |e]|]; simpl in Hph; try done.
  - destruct Hph as [?|?]; congruence.
  - destruct Hph as [?|[?|?]]; congruence.
  - destruct Hph as [?|?]; congruence.
Qed.

Lemma run_cons (i : nat) (schedule : list nat) (c : sts.Cache) :
  sts.run cf (i :: schedule) c = sts.run cf schedule (sts.step cf i c).
Proof. reflexivity. Qed.

Lemma step_cold (i : nat) (c : sts.Cache) :
  sts.callers c !! i = Some (R, sts.Calling) ->
  sts.slots c !! R = None ->
  sts.step cf i c
  = {| sts.slots := <[R := sts.Issuing]> (sts.slots c);
       sts.issued := sts.issued c ++ [sts.roleARN cf R];
       sts.callers := <[i := (R, sts.Invoking)]> (sts.callers c) |}.
Proof. intros Hi Hs. unfold sts.step. by rewrite Hi, Hs. Qed.

Lemma step_issued (i : nat) (c : sts.Cache) :
  sts.callers c !! i = Some (R, sts.Invoking) ->
  sts.issued c = [sts.roleARN cf R] ->
  sts.step cf i c
  = {| sts.slots := <[R := sts.slotOf r0]> (sts.slots c);
       sts.issued := sts.issued c;
       sts.callers := sts.complete R r0 (sts.callers c) |}.
Proof.
  intros Hi Hissued. unfold sts.step. rewrite Hi.
  rewrite (issuances_one c Hissued). simpl. by rewrite first_issuance.
Qed.

(** Once the issuance has returned, every caller that looks the slot up
    gets its result. *)
Lemma run_settled (slots : gmap string sts.Slot) (issued : list string) (m : nat)
    (served : list (string * sts.Phase)) :
  slots !! R = Some (sts.slotOf r0) ->
  sts.run cf (seq (length served) m)
    {| sts.slots := slots; sts.issued := issued;
       sts.callers := served ++ replicate m (R, sts.Calling) |}
  = {| sts.slots := slots; sts.issued := issued;
       sts.callers := served ++ replicate m (R, sts.Received r0) |}.
Proof.
  intros Hs. revert served. induction m as [|m IH]; intros served; [done|].
  cbn [seq]. rewrite run_cons, (step_settled cf r0 _ _ R);
    [|done|by apply list_lookup_middle|done].
  cbn [sts.slots sts.issued sts.callers].
  replace (<[length served := (R, sts.Received r0)]>
             (served ++ replicate (S m) (R, sts.Calling)))
    with ((served ++ [(R, sts.Received r0)]) ++ replicate m (R, sts.Calling)).
  2: { rewrite insert_app_r_alt by done. rewrite Nat.sub_diag. simpl.
       by rewrite <- app_assoc. }
  replace (S (length served))
    with (length (served ++ [(R, sts.Received r0)]))
    by (rewrite length_app; simpl; lia).
  rewrite IH. by rewrite <- app_assoc.
Qed.

(** The schedule in which the first caller issues and the others look the
    slot up afterwards. *)
Lemma run_in_turn (n : nat) :
  sts.run cf (0%nat :: seq 0 (S n)) (sts.cold (S n) R)
  = {| sts.slots := <[R := sts.slotOf r0]> (<[R := sts.Issuing]> ∅);
       sts.issued := [sts.roleARN cf R];
       sts.callers := replicate (S n) (R, sts.Received r0) |}.
Proof.
  cbn [seq]. rewrite run_cons, step_cold by done.
  rewrite run_cons, step_issued by done.
  cbn [sts.cold sts.slots sts.issued sts.callers replicate].
  rewrite app_nil_l.
  assert (Hdone : sts.complete R r0
                    (<[0%nat := (R, sts.Invoking)]>
                       ((R, sts.Calling) :: replicate n (R, sts.Calling)))
                  = [(R, sts.Received r0)] ++ replicate n (R, sts.Calling)).
  { unfold sts.complete. simpl. rewrite decide_True by done.
    by rewrite fmap_replicate. }
  rewrite Hdone.
  exact (run_settled _ _ n [(R, sts.Received r0)]
           (lookup_insert_eq _ _ _)).
Qed.

End single_flight.

(** ** Delivery to the callers of the credential cache *)

(** A caller that has taken a step is past its call. *)
Definition stepped (c : sts.Cache) (i : nat) : Prop :=
  exists role ph, sts.callers c !! i = Some (role, ph) /\ ph <> sts.Calling.

Lemma complete_stepped (role : string) (result : Credentials + error)
    (cs : list (string * sts.Phase)) (i : nat) (r : string) (ph : sts.Phase) :
  cs !! i = Some (r, ph) ->
  ph <> sts.Calling ->
  exists ph', sts.complete role result cs !! i = Some (r, ph') /\ ph' <> sts.Calling.
Proof.
  intros Hi Hph. unfold sts.complete. rewrite list_lookup_fmap, Hi. simpl.
  destruct ph as [| | |res]; [done| | |by eauto];
    destruct (decide (r = role)); by eauto.
Qed.

Lemma step_length (cf : sts.Config) (k : nat) (c : sts.Cache) :
  length (sts.callers (sts.step cf k c)) = length (sts.callers c).
Proof.
  unfold sts.step, sts.complete.
  repeat case_match; simpl; rewrite ?length_insert, ?length_fmap; done.
Qed.

Lemma step_stepped (cf : sts.Config) (k : nat) (c : sts.Cache) (i : nat) :
  stepped c i -> stepped (sts.step cf k c) i.
Proof.
  intros (role & ph & Hi & Hph). unfold stepped, sts.step.
  destruct (sts.callers c !! k) as [[r p]|] eqn:Hk; [|by eauto].
  destruct p as [| | |res]; [|by eauto| |by eauto].
  - assert (k <> i) by (intros ->; congruence).
    repeat case_match; simpl; rewrite list_lookup_insert_ne by done; eauto.
  - simpl. destruct (complete_stepped r
                       (sts.Issue cf (sts.roleARN cf r) (sts.SessionName cf)
                          (sts.issuances (sts.roleARN cf r) c - 1))
                       _ _ _ _ Hi Hph) as (ph' & Hi' & Hph').
    eauto.
Qed.

Lemma step_own (cf : sts.Config) (i : nat) (c : sts.Cache) :
  (i < length (sts.callers c))%nat -> stepped (sts.step cf i c) i.
Proof.
  intros Hlen. destruct (lookup_lt_is_Some_2 _ _ Hlen) as [[r p] Hi].
  unfold stepped, sts.step. rewrite Hi.
  destruct p as [| | |res]; [|by eauto| |by eauto].
  - repeat case_match; simpl; rewrite list_lookup_insert_eq by done;
      eexists _, _; (split; [reflexivity|discriminate]).
  - simpl. destruct (complete_stepped r
                       (sts.Issue cf (sts.roleARN cf r) (sts.SessionName cf)
                          (sts.issuances (sts.roleARN cf r) c - 1))
                       _ _ _ sts.Invoking Hi) as (ph' & Hi' & Hph');
      [discriminate|eauto].
Qed.

Lemma run_length (cf : sts.Config) (schedule : list nat) (c : sts.Cache) :
  length (sts.callers (sts.run cf schedule c)) = length (sts.callers c).
Proof.
  revert c. induction schedule as [|k schedule IH]; intros c; [done|].
  simpl. by rewrite IH, step_length.
Qed.

Lemma run_stepped_stays (cf : sts.Config) (schedule : list nat) (c : sts.Cache)
    (i : nat) :
  stepped c i -> stepped (sts.run cf schedule c) i.
Proof.
  revert c. induction schedule as [|k schedule IH]; intros c Hi; [done|].
  simpl. by apply IH, step_stepped.
Qed.

(** Every caller that the schedule names is past its call at the end. *)
Lemma run_stepped (cf : sts.Config) (schedule : list nat) (c : sts.Cache) (i : nat) :
  i ∈ schedule ->
  (i < length (sts.callers c))%nat ->
  stepped (sts.run cf schedule c) i.
Proof.
  revert c. induction schedule as [|k schedule IH]; intros c Hin Hlen;
    [by apply elem_of_nil in Hin|].
  simpl. apply elem_of_cons in Hin as [-> | Hin].
  - by apply run_stepped_stays, step_own.
  - apply IH; [done|]. by rewrite step_length.
Qed.

Section delivery.
Context (cf : sts.Config) (R : string) (r0 : Credentials + error).
Hypothesis first_issuance :
  sts.Issue cf (sts.roleARN cf R) (sts.SessionName cf) 0 = r0.
Hypothesis no_expiry : sts.settled cf r0.

(** Once the issuance has returned, the slot keeps its outcome. *)
Lemma settled_stays (k : nat) (c : sts.Cache) :
  single_flight_inv cf R r0 c ->
  sts.slots c !! R = Some (sts.slotOf r0) ->
  sts.slots (sts.step cf k c) !! R = Some (sts.slotOf r0).
Proof.
  intros [_ Hcallers] Hs.
  destruct (sts.callers c !! k) as [[role ph]|] eqn:Hk;
    [|by unfold sts.step; rewrite Hk].
  pose proof (Forall_lookup_1 _ _ _ _ Hcallers Hk) as [Hrole Hph].
  simpl in Hrole, Hph. subst role. rewrite Hs in Hph.
  apply phase_ok_slotOf in Hph as [-> | ->].
  - by rewrite (step_settled cf r0 k c R no_expiry Hk Hs).
  - by unfold sts.step; rewrite Hk.
Qed.

Lemma run_settled_stays (schedule : list nat) (c : sts.Cache) :
  single_flight_inv cf R r0 c ->
  sts.slots c !! R = Some (sts.slotOf r0) ->
  sts.slots (sts.run cf schedule c) !! R = Some (sts.slotOf r0).
Proof.
  revert c. induction schedule as [|k schedule IH]; intros c Hinv Hs; [done|].
  simpl. apply IH; [by apply inv_step|by apply settled_stays].
Qed.

(** While the issuance is in flight its issuer stays the issuer, and the
    issuer's next step completes it. *)
Lemma issuer_returns (j k : nat) (c : sts.Cache) :
  single_flight_inv cf R r0 c ->
  sts.slots c !! R = Some sts.Issuing ->
  sts.callers c !! j = Some (R, sts.Invoking) ->
  (k = j -> sts.slots (sts.step cf k c) !! R = Some (sts.slotOf r0))
  /\ (sts.slots (sts.step cf k c) !! R = Some (sts.slotOf r0)
      \/ (sts.slots (sts.step cf k c) !! R = Some sts.Issuing
          /\ sts.callers (sts.step cf k c) !! j = Some (R, sts.Invoking))).
Proof.
  intros [Hslot Hcallers] Hs Hj. rewrite Hs in Hslot.
  assert (Hret : forall i, sts.callers c !! i = Some (R, sts.Invoking) ->
                 sts.slots (sts.step cf i c) !! R = Some (sts.slotOf r0)).
  { intros i Hi. rewrite (step_issued cf R r0 first_issuance i c Hi Hslot).
    simpl. apply lookup_insert_eq. }
  split; [intros ->; by apply Hret|].
  destruct (sts.callers c !! k) as [[role ph]|] eqn:Hk;
    [|right; by unfold sts.step; rewrite Hk].
  pose proof (Forall_lookup_1 _ _ _ _ Hcallers Hk) as [Hrole _].
  simpl in Hrole. subst role.
  destruct ph as [| | |res].
  - right. unfold sts.step. rewrite Hk, Hs. simpl. split; [done|].
    rewrite list_lookup_insert_ne; [done|]. intros ->. congruence.
  - right. by unfold sts.step; rewrite Hk.
  - left. by apply Hret.
  - right. by unfold sts.step; rewrite Hk.
Qed.

Lemma run_issuer_returns (j : nat) (schedule : list nat) (c : sts.Cache) :
  single_flight_inv cf R r0 c ->
  sts.slots c !! R = Some sts.Issuing ->
  sts.callers c !! j = Some (R, sts.Invoking) ->
  j ∈ schedule ->
  sts.slots (sts.run cf schedule c) !! R = Some (sts.slotOf r0).
Proof.
  revert c. induction schedule as [|k schedule IH]; intros c Hinv Hs Hj Hin;
    [by apply elem_of_nil in Hin|].
  simpl. destruct (issuer_returns j k c Hinv Hs Hj) as [Hown Hany].
  pose proof (inv_step cf R r0 first_issuance no_expiry k c Hinv) as Hinv'.
  apply elem_of_cons in Hin as [-> | Hin].
  - apply run_settled_stays; [done|by apply Hown].
  - destruct Hany as [Hdone | [Hs' Hj']].
    + by apply run_settled_stays.
    + by apply IH.
Qed.

(** In every schedule in which each caller takes a step and the caller
    that took the first step, the issuer, takes another one, whatever the
    order of the steps in between, one issuance is made and every caller
    has its result. *)
Lemma run_delivers (n j : nat) (rest : list nat) :
  (j < n)%nat ->
  j ∈ rest ->
  (forall i, (i < n)%nat -> i ∈ j :: rest) ->
  sts.issued (sts.run cf (j :: rest) (sts.cold n R)) = [sts.roleARN cf R]
  /\ sts.callers (sts.run cf (j :: rest) (sts.cold n R))
     = replicate n (R, sts.Received r0).
Proof.
  intros Hj Hagain Hall.
  assert (Hcold : sts.callers (sts.cold n R) !! j = Some (R, sts.Calling))
    by (by apply lookup_replicate_2).
  pose proof (step_cold cf R j (sts.cold n R) Hcold (lookup_empty _)) as Hstep.
  pose proof (inv_step cf R r0 first_issuance no_expiry j _ (inv_cold cf R r0 n))
    as Hinv1.
  assert (Hs1 : sts.slots (sts.step cf j (sts.cold n R)) !! R = Some sts.Issuing)
    by (rewrite Hstep; simpl; apply lookup_insert_eq).
  assert (Hj1 : sts.callers (sts.step cf j (sts.cold n R)) !! j
                = Some (R, sts.Invoking)).
  { rewrite Hstep. simpl. apply list_lookup_insert_eq.
    by rewrite length_replicate. }
  pose proof (run_issuer_returns j rest _ Hinv1 Hs1 Hj1 Hagain) as Hslot.
  pose proof (inv_run cf R r0 first_issuance no_expiry rest _ Hinv1)
    as [Hissued Hcallers].
  change (sts.run cf rest (sts.step cf j (sts.cold n R)))
    with (sts.run cf (j :: rest) (sts.cold n R)) in *.
  rewrite Hslot in Hissued, Hcallers. split.
  - by destruct (sts.slotOf r0); [destruct Hissued| |destruct Hissued].
  - apply list_eq. intros i. destruct (decide (i < n)%nat) as [Hi|Hi].
    + rewrite lookup_replicate_2 by done.
      destruct (run_stepped cf (j :: rest) (sts.cold n R) i)
        as (role & ph & Hlook & Hph); [by apply Hall|by simpl; rewrite length_replicate|].
      pose proof (Forall_lookup_1 _ _ _ _ Hcallers Hlook) as [Hrole Hok].
      simpl in Hrole, Hok. subst role.
      apply phase_ok_slotOf in Hok as [-> | ->]; done.
    + rewrite (proj1 (lookup_replicate_None n _ i)) by lia.
      apply lookup_ge_None_2. rewrite run_length. simpl.
      rewrite length_replicate. lia.
Qed.

End delivery.

(** ** The retry loop of the role-name handler *)

Section role_name_loop.
Context (tm : Timing) (s : Server) (ip : string).

Abbreviation RetryRole ctx start :=
  (backoff.Retry roleClock roleSleepUntil (roleOp tm s ip) (strategyOf tm s) ctx start).

(** The loop does not touch the response writer and does nothing but look
    the IP up, at least once; when it returns nil, [roleCh] holds a role,
    not empty, that one of its lookups returned without an error, and
    otherwise [roleCh] is as it was. *)
Lemma Retry_looks_up_only (ctx : Context) (start : Z) (fuel n : nat) (σ σ' : World)
    (roleCh ch' : option string) (err : option error) :
  RetryRole ctx start fuel n (σ, roleCh) = Some (err, (σ', ch')) ->
  W σ' = W σ
  /\ (exists k, Trace σ' = Trace σ ++ replicate (S k) (FindRoleCall ip))
  /\ match err with
     | None =>
         exists k role,
           finder s (n + k)%nat ip = (role, None)
           /\ role <> EmptyString /\ ch' = Some role
     | Some _ => ch' = roleCh
     end.
Proof.
  revert n σ. induction fuel as [|fuel IH]; intros n σ; [discriminate|].
  rewrite Retry_S, roleOp_eq.
  assert (Hfail : forall (e : error),
            (if ctxDone ctx
                  (roleClock (setNow (Now σ + latency tm n) (emit (FindRoleCall ip) σ),
                              roleCh))
             then Some (Some e, (setNow (Now σ + latency tm n)
                                   (emit (FindRoleCall ip) σ), roleCh))
             else
               match backoff.NextBackOff (strategyOf tm s) n
                       (roleClock (setNow (Now σ + latency tm n)
                                     (emit (FindRoleCall ip) σ), roleCh) - start) with
               | None => Some (Some e, (setNow (Now σ + latency tm n)
                                          (emit (FindRoleCall ip) σ), roleCh))
               | Some next =>
                   match ctx with
                   | Some (t, _) =>
                       if bool_decide
                            (t <= roleClock (setNow (Now σ + latency tm n)
                                               (emit (FindRoleCall ip) σ), roleCh) + next)
                       then Some (Some e,
                                  roleSleepUntil t
                                    (setNow (Now σ + latency tm n)
                                       (emit (FindRoleCall ip) σ), roleCh))
                       else RetryRole ctx start fuel (S n)
                              (roleSleepUntil
                                 (roleClock (setNow (Now σ + latency tm n)
                                               (emit (FindRoleCall ip) σ), roleCh) + next)
                                 (setNow (Now σ + latency tm n)
                                    (emit (FindRoleCall ip) σ), roleCh))
                   | None =>
                       RetryRole ctx start fuel (S n)
                         (roleSleepUntil
                            (roleClock (setNow (Now σ + latency tm n)
                                          (emit (FindRoleCall ip) σ), roleCh) + next)
                            (setNow (Now σ + latency tm n)
                               (emit (FindRoleCall ip) σ), roleCh))
                   end
               end) = Some (err, (σ', ch')) ->
            W σ' = W σ
            /\ (exists k, Trace σ' = Trace σ ++ replicate (S k) (FindRoleCall ip))
            /\ match err with
               | None =>
                   exists k role,
                     finder s (n + k)%nat ip = (role, None)
                     /\ role <> EmptyString /\ ch' = Some role
               | Some _ => ch' = roleCh
               end).
  { intros e.
    assert (Hstop : forall t,
              Some (Some e, (setNow t (emit (FindRoleCall ip) σ), roleCh))
              = Some (err, (σ', ch')) ->
              W σ' = W σ
              /\ (exists k, Trace σ' = Trace σ ++ replicate (S k) (FindRoleCall ip))
              /\ match err with
                 | None =>
                     exists k role,
                       finder s (n + k)%nat ip = (role, None)
                       /\ role <> EmptyString /\ ch' = Some role
                 | Some _ => ch' = roleCh
                 end).
    { intros t [= <- <- <-]. split; [done|]. split; [by exists 0%nat|done]. }
    assert (Hnext : forall t,
              RetryRole ctx start fuel (S n)
                (setNow t (setNow (Now σ + latency tm n) (emit (FindRoleCall ip) σ)),
                 roleCh) = Some (err, (σ', ch')) ->
              W σ' = W σ
              /\ (exists k, Trace σ' = Trace σ ++ replicate (S k) (FindRoleCall ip))
              /\ match err with
                 | None =>
                     exists k role,
                       finder s (n + k)%nat ip = (role, None)
                       /\ role <> EmptyString /\ ch' = Some role
                 | Some _ => ch' = roleCh
                 end).
    { intros t Hrun. apply IH in Hrun as (Hw & [k Htrace] & Herr).
      split; [exact Hw|]. split.
      - exists (S k). rewrite Htrace. cbn [setNow emit Trace].
        by rewrite <- app_assoc.
      - destruct err as [e'|]; [exact Herr|].
        destruct Herr as (k' & role & Hfound & Hne & Hch).
        exists (S k'), role. by rewrite <- Nat.add_succ_comm. }
    destruct (ctxDone ctx _); [apply Hstop|].
    destruct (backoff.NextBackOff _ _ _) as [next|]; [|apply Hstop].
    destruct ctx as [[t ce]|]; [|apply Hnext].
    destruct (bool_decide _); [apply Hstop|apply Hnext]. }
  destruct (finder s n ip) as [role [e|]] eqn:Hfound; [apply Hfail|].
  destruct (decide (role = EmptyString)) as [->|Hne]; [apply Hfail|].
  intros [= <- <- <-]. split; [done|]. split; [by exists 0%nat|].
  exists 0%nat, role. by rewrite Nat.add_0_r.
Qed.

(** While every lookup fails with the same error and the context stays
    live, the loop makes one lookup after the other and returns that error
    once the budget is used up. *)
Lemma Retry_refused (e : error) (start : Z) (fuel n : nat) (σ : World)
    (roleCh : option string) :
  (forall n, snd (finder s n ip) = Some e) ->
  MaxElapsedTime (cfg s) <> 0 ->
  (forall n, 0 <= latency tm n) ->
  (forall n, 0 < draw tm n) ->
  (Z.to_nat (MaxElapsedTime (cfg s) + 1 - (Now σ - start)) < fuel)%nat ->
  exists σ' k,
    RetryRole None start fuel n (σ, roleCh) = Some (Some e, (σ', roleCh))
    /\ MaxElapsedTime (cfg s) < Now σ' - start
    /\ W σ' = W σ
    /\ Trace σ' = Trace σ ++ replicate (S k) (FindRoleCall ip).
Proof.
  intros Hrefuse Hbudget Hlat Hdraw.
  revert n σ. induction fuel as [|fuel IH]; intros n σ Hfuel; [lia|].
  rewrite Retry_S, roleOp_eq. specialize (Hrefuse n) as He.
  destruct (finder s n ip) as [role [e'|]]; [|discriminate He].
  injection He as ->.
  cbn [ctxDone roleClock fst setNow Now].
  destruct (backoff.NextBackOff (strategyOf tm s) n (Now σ + latency tm n - start))
    as [next|] eqn:Hnext.
  - assert (Hin : Now σ + latency tm n - start <= MaxElapsedTime (cfg s)).
    { destruct (Z_le_gt_dec (Now σ + latency tm n - start) (MaxElapsedTime (cfg s)))
        as [|Hgt]; [done|].
      assert (backoff.NextBackOff (strategyOf tm s) n (Now σ + latency tm n - start)
              = None)
        as Hstop by (apply NextBackOff_Stop; split; [done|simpl; lia]).
      congruence. }
    apply NextBackOff_interval in Hnext. simpl in Hnext. subst next.
    pose proof (Hlat n). pose proof (Hdraw n).
    destruct (IH (S n)
                (setNow (Now σ + latency tm n + draw tm n)
                   (setNow (Now σ + latency tm n) (emit (FindRoleCall ip) σ))))
      as (σ' & k & Hrun & Hlate & Hw & Htrace).
    { cbn [setNow Now]. lia. }
    exists σ', (S k). split; [exact Hrun|]. split; [exact Hlate|].
    split; [exact Hw|]. rewrite Htrace. cbn [setNow emit Trace].
    rewrite <- app_assoc. reflexivity.
  - apply NextBackOff_Stop in Hnext as [_ Hlate]. simpl in Hlate.
    eexists _, 0%nat. split; [reflexivity|]. cbn [setNow Now emit W Trace].
    split; [lia|]. done.
Qed.

End role_name_loop.

Lemma roleNameResponse_error_iff (rt : Runtime) (ip : string) (err0 : option error)
    (st : RoleState) (status : Z) (err : option error) (σ' : World) :
  roleNameResponse rt ip err0 st = (Returned status err, σ') ->
  (status = StatusOK /\ err = None /\ err0 = None)
  \/ ((status = StatusNotFound \/ status = StatusInternalServerError)
      /\ err <> None).
Proof.
  destruct st as [σ1 roleCh]. unfold roleNameResponse.
  destruct (is_var "metadata.PodNotFound" err0); [intros [= <- <- _]; auto|].
  destruct err0 as [e0|]; [intros [= <- <- _]; auto|].
  destruct (decide (default EmptyString roleCh = EmptyString));
    [intros [= <- <- _]; auto|].
  destruct (Write rt (default EmptyString roleCh) (W σ1)).
  intros [= <- <- _]; auto.
Qed.

(** The handler returns 200 only when a lookup returned a role, not empty,
    for the client's IP. *)
Lemma roleNameHandler_200_found (rt : Runtime) (tm : Timing) (fuel : nat)
    (s : Server) (req : Request) (σ σ' : World) (status : Z) (err : option error) :
  roleNameHandler rt tm fuel s req σ = Some (Returned status err, σ') ->
  (status = StatusOK /\ err = None
   /\ exists ip n role,
        Server_clientIP s req = (ip, None)
        /\ finder s n ip = (role, None) /\ role <> EmptyString)
  \/ ((status = StatusNotFound \/ status = StatusInternalServerError)
      /\ err <> None).
Proof.
  unfold roleNameHandler.
  destruct (Server_clientIP s req) as [ip [e|]];
    [intros [= <- <- <-]; right; auto|].
  match goal with
  | |- context [backoff.Retry ?c ?sl ?op ?b ?cx ?st fuel ?n ?x] =>
      destruct (backoff.Retry c sl op b cx st fuel n x) as [[err0 [σ1 ch]]|] eqn:Hrun;
      [|discriminate]
  end.
  destruct (Retry_looks_up_only tm s ip _ _ _ _ _ _ _ _ _ Hrun) as (_ & _ & Herr).
  assert (Hresp : Some (roleNameResponse rt ip err0 (σ1, ch))
                  = Some (Returned status err, σ') ->
                  (status = StatusOK /\ err = None
                   /\ exists ip0 n role,
                        (ip, @None error) = (ip0, None)
                        /\ finder s n ip0 = (role, None) /\ role <> EmptyString)
                  \/ ((status = StatusNotFound \/ status = StatusInternalServerError)
                      /\ err <> None)).
  { intros Hresp. apply (inj Some) in Hresp.
    apply roleNameResponse_error_iff in Hresp
      as [(-> & -> & ->)|Hresp]; [left|by right].
    destruct Herr as (k & role & Hfound & Hne & _).
    repeat split. by exists ip, (0 + k)%nat, role. }
  destruct (Ctx req) as [[t ce]|]; [|exact Hresp].
  destruct (bool_decide (t <= roleClock (σ1, ch))); [|exact Hresp].
  intros [= <- <- <-]. right. auto.
Qed.

(** While every lookup yields an empty role and no error, the loop can
    only end with [PodNotFound]. *)
Lemma Retry_no_pod_error (tm : Timing) (s : Server) (ip : string) (ctx : Context)
    (start : Z) (fuel n : nat) (st st' : RoleState) (err : option error) :
  (forall n, finder s n ip = (EmptyString, None)) ->
  backoff.Retry roleClock roleSleepUntil (roleOp tm s ip) (strategyOf tm s)
    ctx start fuel n st = Some (err, st') ->
  err = Some PodNotFound.
Proof.
  intros Hnone. revert n st.
  induction fuel as [|fuel IH]; intros n [σ roleCh]; [discriminate|].
  rewrite Retry_S, roleOp_eq, Hnone. rewrite decide_True by done.
  destruct (ctxDone _ _); [by intros [= <- _]|].
  destruct (backoff.NextBackOff _ _ _) as [next|]; [|by intros [= <- _]].
  destruct ctx as [[t ce]|]; [|apply IH].
  destruct (bool_decide _); [by intros [= <- _]|apply IH].
Qed.

(** What the role-name handler can answer for an IP whose lookups all
    yield an empty role: 404 "pod not found for ip", or 500 with the error
    of the request's context. *)
Lemma roleNameHandler_no_pod_answers (rt : Runtime) (tm : Timing) (fuel : nat)
    (s : Server) (req : Request) (σ σ' : World) (ip : string) (status : Z)
    (err : option error) :
  Server_clientIP s req = (ip, None) ->
  (forall n, finder s n ip = (EmptyString, None)) ->
  roleNameHandler rt tm fuel s req σ = Some (Returned status err, σ') ->
  (status = StatusNotFound
   /\ err = Some (Errorf ("pod not found for ip " +:+ ip)))
  \/ (status = StatusInternalServerError
      /\ exists t ce, Ctx req = Some (t, ce) /\ err = Some ce).
Proof.
  intros Hip Hnone. unfold roleNameHandler. rewrite Hip.
  match goal with
  | |- context [backoff.Retry ?c ?sl ?op ?b ?cx ?st fuel ?n ?x] =>
      destruct (backoff.Retry c sl op b cx st fuel n x) as [[err0 [σ1 ch]]|] eqn:Hrun;
      [|discriminate]
  end.
  apply (Retry_no_pod_error tm s ip) in Hrun as ->; [|exact Hnone].
  destruct (Ctx req) as [[t ce]|].
  - destruct (bool_decide (t <= roleClock (σ1, ch))).
    + intros [= <- <- _]. right. split; [done|]. by exists t, ce.
    + intros [= <- <- _]. by left.
  - intros [= <- <- _]. by left.
Qed.

(** * The claims *)

(** C1, as amended.  When the pod's role is not empty, the requested role
    is not empty either, and the two differ, the credentials endpoint
    answers 403 with a body that contains "unable to assume role" and the
    requested role, and the trace of the request gains the finder's call
    and the response meter only: the credentials provider is not called,
    whatever it would have answered. *)
Theorem role_mismatch_is_forbidden (rt : Runtime) (h : Helpers) (s : Server)
    (req : Request) (σ : World) (ip foundRole : string) :
  W σ = NewResponseWriter None ->
  Server_clientIP s req = (ip, None) ->
  findRole h ip = (foundRole, None) ->
  foundRole <> EmptyString ->
  Get (Vars req) "role" <> EmptyString ->
  foundRole <> Get (Vars req) "role" ->
  exists resp,
    response (serveCredentials rt h s req σ) = Some resp
    /\ StatusCode resp = StatusForbidden
    /\ strings.Contains (ResponseBody resp)
         ("unable to assume role " +:+ Get (Vars req) "role")
    /\ Trace (snd (serveCredentials rt h s req σ))
       = Trace σ ++ [FindRoleCall ip; MeterMark "handlerResponse-credentials.4xx"]
    /\ providerCalls (Trace (snd (serveCredentials rt h s req σ)))
       = providerCalls (Trace σ).
Proof.
  intros Hw Hip Hrole Hne Hreq Hdiff.
  unfold serveCredentials, errorHandler.
  rewrite (credentialsHandler_mismatch rt h s req σ ip foundRole) by done.
  eexists. split; [by apply errorResponse_of_error|].
  split; [reflexivity|]. split.
  { cbn [ResponseBody Error].
    exists EmptyString,
      ((", role on pod specified is " +:+ foundRole) +:+ LF).
    rewrite append_Empty_l, !append_assoc. reflexivity. }
  rewrite errorResponse_trace. cbn [emit Trace].
  rewrite <- app_assoc. split; [reflexivity|].
  rewrite providerCalls_app. simpl. lia.
Qed.

Lemma role_mismatch_is_forbidden_witness :
  exists resp,
    response (serveCredentials scenario.runtime scenario.granted
                (scenario.agent (NewConfig 8181) 0)
                (scenario.request "10.0.0.5:40000" "admin" None) (NewWorld None))
    = Some resp
    /\ StatusCode resp = StatusForbidden
    /\ strings.Contains (ResponseBody resp) ("unable to assume role " +:+ "admin")
    /\ Trace (snd (serveCredentials scenario.runtime scenario.granted
                     (scenario.agent (NewConfig 8181) 0)
                     (scenario.request "10.0.0.5:40000" "admin" None)
                     (NewWorld None)))
       = [] ++ [FindRoleCall "10.0.0.5"; MeterMark "handlerResponse-credentials.4xx"]
    /\ providerCalls
         (Trace (snd (serveCredentials scenario.runtime scenario.granted
                        (scenario.agent (NewConfig 8181) 0)
                        (scenario.request "10.0.0.5:40000" "admin" None)
                        (NewWorld None))))
       = providerCalls [].
Proof.
  apply (role_mismatch_is_forbidden scenario.runtime scenario.granted
           (scenario.agent (NewConfig 8181) 0)
           (scenario.request "10.0.0.5:40000" "admin" None) (NewWorld None)
           "10.0.0.5" "reader");
    [reflexivity | reflexivity | reflexivity | discriminate
    | vm_compute; discriminate | vm_compute; discriminate].
Defined.

(** C1, the counterexample.  Pod p1 has the role reader and the request
    names no role: the pod's role is not empty and differs from the
    requested one, and the answer is 400 "no role specified", not 403. *)
Lemma mismatch_with_no_role_requested_is_400 :
  findRole scenario.granted "10.0.0.5" = ("reader", None)
  /\ Get (Vars (scenario.request "10.0.0.5:40000" EmptyString None)) "role"
     = EmptyString
  /\ "reader" <> EmptyString
  /\ fst (serveCredentials scenario.runtime scenario.granted
            (scenario.agent (NewConfig 8181) 0)
            (scenario.request "10.0.0.5:40000" EmptyString None) (NewWorld None))
     = Returned StatusBadRequest (Some (Errorf "no role specified"))
  /\ StatusCode <$>
       response (serveCredentials scenario.runtime scenario.granted
                   (scenario.agent (NewConfig 8181) 0)
                   (scenario.request "10.0.0.5:40000" EmptyString None)
                   (NewWorld None))
     = Some StatusBadRequest
  /\ StatusBadRequest <> StatusForbidden.
Proof. repeat split; try discriminate; vm_compute; reflexivity. Qed.

(** C2, as amended.  When no pod is known for the source IP at any lookup,
    the request's context is never done and the budget [MaxElapsedTime] is
    not 0, the role-name handler looks the IP up again and again, each
    lookup after the interval that the backoff strategy draws, and returns
    404 "pod not found for ip" with the IP once more than [MaxElapsedTime]
    has passed, which the endpoint sends as plain text; and whatever the
    finder and the context do, it returns 404 only after more than
    [MaxElapsedTime] has passed.  The budget of [NewConfig] is ten
    seconds. *)
Theorem unknown_ip_is_not_found_after_the_budget (rt : Runtime) (tm : Timing)
    (s : Server) (req : Request) (σ : World) (ip : string) :
  W σ = NewResponseWriter None ->
  Server_clientIP s req = (ip, None) ->
  (forall n, finder s n ip = (EmptyString, None)) ->
  Ctx req = None ->
  MaxElapsedTime (cfg s) <> 0 ->
  (forall n, 0 <= latency tm n) ->
  (forall n, 0 < draw tm n) ->
  (exists fuel σ' k,
     (forall more,
        roleNameHandler rt tm (fuel + more) s req σ
        = Some (Returned StatusNotFound
                  (Some (Errorf ("pod not found for ip " +:+ ip))), σ'))
     /\ Trace σ'
        = Trace σ ++ replicate (S k) (FindRoleCall ip)
            ++ [MeterMark "roleNameHandler.podNotFound"]
     /\ MaxElapsedTime (cfg s) < Now σ' - Now σ
     /\ (forall more,
           serveRoleName rt tm (fuel + more) s req σ ≫= response
           = Some {| StatusCode := StatusNotFound;
                     Header := plainTextHeader;
                     ResponseBody := ("pod not found for ip " +:+ ip) +:+ LF |}))
  /\ (forall fuel err σ',
        roleNameHandler rt tm fuel s req σ = Some (Returned StatusNotFound err, σ') ->
        MaxElapsedTime (cfg s) < Now σ' - Now σ)
  /\ (forall port, MaxElapsedTime (NewConfig port) = 10 * Second).
Proof.
  intros Hw Hip Hnone Hctx Hbudget Hlat Hdraw.
  split; [|split; [|reflexivity]].
  - destruct (Retry_no_pod tm s ip (Now σ)
                (S (Z.to_nat (MaxElapsedTime (cfg s) + 1))) 0 σ None
                Hnone Hbudget Hlat Hdraw)
      as (σ1 & k & Hrun & Hlate & Hw1 & Htrace).
    { replace (Now σ - Now σ) with 0 by lia. lia. }
    exists (S (Z.to_nat (MaxElapsedTime (cfg s) + 1))),
      (emit (MeterMark "roleNameHandler.podNotFound") σ1), k.
    assert (Hh : roleNameHandler rt tm (S (Z.to_nat (MaxElapsedTime (cfg s) + 1))) s req σ
                 = Some (Returned StatusNotFound
                           (Some (Errorf ("pod not found for ip " +:+ ip))),
                         emit (MeterMark "roleNameHandler.podNotFound") σ1)).
    { rewrite (roleNameHandler_live rt tm s ip) by done. by rewrite Hrun. }
    split; [intros more; by apply roleNameHandler_more_fuel|].
    split; [cbn [emit Trace]; rewrite Htrace, <- app_assoc; reflexivity|].
    split; [exact Hlate|].
    intros more. unfold serveRoleName.
    rewrite (roleNameHandler_more_fuel rt tm s _ more _ _ _ Hh).
    cbn [fmap option_fmap option_map mbind option_bind].
    apply errorResponse_of_error. cbn [emit W]. congruence.
  - intros fuel err σ'. apply roleNameHandler_404_after_budget.
Qed.

Lemma unknown_ip_is_not_found_after_the_budget_witness :
  (exists fuel σ' k,
     (forall more,
        roleNameHandler scenario.runtime scenario.timing (fuel + more)
          (scenario.agent (NewConfig 8181) 0)
          (scenario.request "10.0.0.99:40000" EmptyString None) (NewWorld None)
        = Some (Returned StatusNotFound
                  (Some (Errorf ("pod not found for ip " +:+ "10.0.0.99"))), σ'))
     /\ Trace σ'
        = Trace (NewWorld None) ++ replicate (S k) (FindRoleCall "10.0.0.99")
            ++ [MeterMark "roleNameHandler.podNotFound"]
     /\ MaxElapsedTime (cfg (scenario.agent (NewConfig 8181) 0))
        < Now σ' - Now (NewWorld None)
     /\ (forall more,
           serveRoleName scenario.runtime scenario.timing (fuel + more)
             (scenario.agent (NewConfig 8181) 0)
             (scenario.request "10.0.0.99:40000" EmptyString None) (NewWorld None)
           ≫= response
           = Some {| StatusCode := StatusNotFound;
                     Header := plainTextHeader;
                     ResponseBody :=
                       ("pod not found for ip " +:+ "10.0.0.99") +:+ LF |}))
  /\ (forall fuel err σ',
        roleNameHandler scenario.runtime scenario.timing fuel
          (scenario.agent (NewConfig 8181) 0)
          (scenario.request "10.0.0.99:40000" EmptyString None) (NewWorld None)
        = Some (Returned StatusNotFound err, σ') ->
        MaxElapsedTime (cfg (scenario.agent (NewConfig 8181) 0))
        < Now σ' - Now (NewWorld None))
  /\ (forall port, MaxElapsedTime (NewConfig port) = 10 * Second).
Proof.
  apply (unknown_ip_is_not_found_after_the_budget scenario.runtime scenario.timing
           (scenario.agent (NewConfig 8181) 0)
           (scenario.request "10.0.0.99:40000" EmptyString None) (NewWorld None)
           "10.0.0.99");
    [reflexivity | reflexivity | intros n; reflexivity | reflexivity
    | discriminate | intros n; discriminate
    | intros n; apply grow_positive; reflexivity].
Defined.

(** The run of the witness: seven lookups, the last one 10.4 seconds after
    the first. *)
Example unknown_ip_scenario :
  roleNameHandler scenario.runtime scenario.timing 9
    (scenario.agent (NewConfig 8181) 0)
    (scenario.request "10.0.0.99:40000" EmptyString None) (NewWorld None)
  = Some (Returned StatusNotFound (Some (Errorf "pod not found for ip 10.0.0.99")),
          {| W := NewResponseWriter None;
             Trace := replicate 7 (FindRoleCall "10.0.0.99")
                        ++ [MeterMark "roleNameHandler.podNotFound"];
             Now := 10397625000 |}).
Proof. vm_compute. reflexivity. Qed.

(** C2, the counterexample.  No pod is known for 10.0.0.99 at any lookup,
    and the client gives up after one second: the handler returns 500
    "context canceled" at that second, nine seconds before the budget of
    ten seconds is used up, and never 404. *)
Lemma cancelled_request_for_unknown_ip_is_500 :
  (forall n, finder (scenario.agent (NewConfig 8181) 0) n "10.0.0.99"
             = (EmptyString, None))
  /\ MaxElapsedTime (cfg (scenario.agent (NewConfig 8181) 0)) = 10 * Second
  /\ (forall more,
        roleNameHandler scenario.runtime scenario.timing (2 + more)
          (scenario.agent (NewConfig 8181) 0)
          (scenario.request "10.0.0.99:40000" EmptyString (Some (Second, Canceled)))
          (NewWorld None)
        = Some (Returned StatusInternalServerError (Some Canceled),
                {| W := NewResponseWriter None;
                   Trace := [FindRoleCall "10.0.0.99"; FindRoleCall "10.0.0.99"];
                   Now := Second |}))
  /\ (forall more,
        serveRoleName scenario.runtime scenario.timing (2 + more)
          (scenario.agent (NewConfig 8181) 0)
          (scenario.request "10.0.0.99:40000" EmptyString (Some (Second, Canceled)))
          (NewWorld None)
        ≫= response
        = Some {| StatusCode := StatusInternalServerError;
                  Header := plainTextHeader;
                  ResponseBody := "context canceled" +:+ LF |})
  /\ StatusInternalServerError <> StatusNotFound.
Proof.
  split; [intros n; reflexivity|]. split; [reflexivity|].
  assert (Hrun : forall more,
            roleNameHandler scenario.runtime scenario.timing (2 + more)
              (scenario.agent (NewConfig 8181) 0)
              (scenario.request "10.0.0.99:40000" EmptyString
                 (Some (Second, Canceled)))
              (NewWorld None)
            = Some (Returned StatusInternalServerError (Some Canceled),
                    {| W := NewResponseWriter None;
                       Trace := [FindRoleCall "10.0.0.99"; FindRoleCall "10.0.0.99"];
                       Now := Second |})).
  { intros more. apply roleNameHandler_more_fuel. vm_compute. reflexivity. }
  split; [exact Hrun|]. split; [|discriminate].
  intros more. unfold serveRoleName. rewrite Hrun. reflexivity.
Qed.

(** C3, as amended.  The server's [GetPodRole] makes one lookup in the pod
    cache and no more: it returns the cache's error as it is,
    [PodNotFoundError] on a miss, and the role of the pod it found.  The
    retry is the agent's: the role-name handler looks the role up under a
    backoff bounded by [MaxElapsedTime], ten seconds by default; while the
    lookups fail or give no role within the budget it tries again, and it
    leaves the loop with the first lookup that resolves the IP and answers
    with that role. *)
Theorem GetPodRole_looks_up_once_and_the_agent_retries
    (Pod : Type) (PodRole : Pod -> string) (k : server.KiamServer Pod)
    (served : nat) (port : Z)
    (rt : Runtime) (tm : Timing) (s : Server) (req : Request) (σ : World)
    (ip role : string) (misses : nat) :
  W σ = NewResponseWriter None ->
  Server_clientIP s req = (ip, None) ->
  Ctx req = None ->
  (forall j, (j < misses)%nat -> ~ resolved (finder s j ip)) ->
  finder s misses ip = (role, None) ->
  role <> EmptyString ->
  (forall j, (j < misses)%nat ->
     MaxElapsedTime (cfg s) = 0 \/ attemptEnd tm j <= MaxElapsedTime (cfg s)) ->
  server.GetPodRole PodRole k served ip
  = (match server.pods k served ip with
     | (_, Some e) => (None, Some e)
     | (None, None) => (None, Some PodNotFoundError)
     | (Some pod, None) => (Some {| server.Name := PodRole pod |}, None)
     end, S served)
  /\ MaxElapsedTime (NewConfig port) = 10 * Second
  /\ exists σ',
       (forall more,
          roleNameHandler rt tm (S misses + more) s req σ
          = Some (Returned StatusOK None, σ'))
       /\ Trace σ'
          = Trace σ ++ replicate (S misses) (FindRoleCall ip)
              ++ [MeterMark "roleNameHandler.success"]
       /\ Body (W σ') = role
       /\ Now σ' = Now σ + attemptEnd tm misses.
Proof.
  intros Hw Hip Hctx Hfail Hfound Hrole Hbudget.
  split; [apply GetPodRole_eq|]. split; [reflexivity|].
  destruct (Retry_until_resolved tm s ip (Now σ) role misses 0 σ None)
    as (σ1 & Hrun & Hw1 & Htrace & Hend); try done.
  { simpl. lia. }
  { intros j Hj. apply Hfail. lia. }
  { intros j Hj. apply Hbudget. lia. }
  assert (Hh : roleNameHandler rt tm (S misses) s req σ
               = Some (Returned StatusOK None,
                       emit (MeterMark "roleNameHandler.success")
                         (setW (fst (Write rt role (W σ1))) σ1))).
  { rewrite (roleNameHandler_live rt tm s ip) by done. rewrite Hrun.
    unfold roleNameResponse. cbn [is_var default]. unfold id.
    rewrite decide_False by done. by destruct (Write rt role (W σ1)). }
  eexists. split; [intros more; apply roleNameHandler_more_fuel; exact Hh|].
  cbn [emit setW Trace W Now]. rewrite Htrace, Hw1, Hw, <- app_assoc.
  repeat split. exact Hend.
Qed.

Lemma GetPodRole_looks_up_once_and_the_agent_retries_witness :
  server.GetPodRole id (scenario.kiamServer 1) 0 "10.0.0.5"
  = (match server.pods (scenario.kiamServer 1) 0 "10.0.0.5" with
     | (_, Some e) => (None, Some e)
     | (None, None) => (None, Some PodNotFoundError)
     | (Some pod, None) => (Some {| server.Name := id pod |}, None)
     end, 1%nat)
  /\ MaxElapsedTime (NewConfig 8181) = 10 * Second
  /\ exists σ',
       (forall more,
          roleNameHandler scenario.runtime scenario.timing (3 + more)
            (scenario.agent (NewConfig 8181) 2)
            (scenario.request "10.0.0.5:40000" EmptyString None) (NewWorld None)
          = Some (Returned StatusOK None, σ'))
       /\ Trace σ'
          = Trace (NewWorld None) ++ replicate 3 (FindRoleCall "10.0.0.5")
              ++ [MeterMark "roleNameHandler.success"]
       /\ Body (W σ') = "reader"
       /\ Now σ' = Now (NewWorld None) + attemptEnd scenario.timing 2.
Proof.
  apply (GetPodRole_looks_up_once_and_the_agent_retries
           string id (scenario.kiamServer 1) 0 8181
           scenario.runtime scenario.timing
           (scenario.agent (NewConfig 8181) 2)
           (scenario.request "10.0.0.5:40000" EmptyString None) (NewWorld None)
           "10.0.0.5" "reader" 2);
    [reflexivity | reflexivity | reflexivity
    | intros [|[|j]] Hj [_ Hrole]; [by apply Hrole | by apply Hrole | lia]
    | reflexivity | discriminate
    | intros [|[|j]] Hj; [right; discriminate | right; discriminate | lia]].
Defined.

(** Scenario 3: the pod becomes known between the second and the third
    lookup, and the third one, 1.253 seconds after the first began,
    resolves the IP. *)
Example unknown_ip_resolves_mid_retry :
  serveRoleName scenario.runtime scenario.timing 3
    (scenario.agent (NewConfig 8181) 2)
    (scenario.request "10.0.0.5:40000" EmptyString None) (NewWorld None)
  ≫= response
  = Some {| StatusCode := StatusOK;
            Header := {[ "Content-Type" := "text/plain; charset=utf-8" ]};
            ResponseBody := "reader" |}
  /\ attemptEnd scenario.timing 2 = 1253 * Millisecond.
Proof. split; vm_compute; reflexivity. Qed.

(** C3, the counterexample.  The pod cache does not know 10.0.0.5 at its
    first lookup and knows it at the second: [GetPodRole] makes the first
    lookup only and reports [PodNotFoundError]; it is the next call that
    finds the role. *)
Lemma GetPodRole_reports_the_first_miss :
  server.pods (scenario.kiamServer 1) 0 "10.0.0.5" = (None, None)
  /\ server.pods (scenario.kiamServer 1) 1 "10.0.0.5" = (Some "reader", None)
  /\ server.GetPodRole id (scenario.kiamServer 1) 0 "10.0.0.5"
     = ((None, Some PodNotFoundError), 1%nat)
  /\ server.GetPodRole id (scenario.kiamServer 1) 1 "10.0.0.5"
     = ((Some {| server.Name := "reader" |}, None), 2%nat).
Proof. repeat split. Qed.

(** C4.  Callers of [CredentialsForRole(R)] start on a cold cache, and
    nothing expires during the run: the record of the first issuance for
    [R] stays valid, or, when that issuance fails, its retry-after does not
    pass.  Then, whatever the order in which the callers take their steps,
    at most one issuance is made for [R], and every caller that has its
    result has the result of that issuance, so that any two callers hold
    the same record with the same [AccessKeyId]; and in every schedule in
    which each caller takes a step and the issuer, the caller that took
    the first step, takes another one, whatever the order of the steps in
    between and however many callers attached to the issuance while it was
    in flight, exactly one issuance is made and every caller has its
    result. *)
Theorem CredentialsForRole_single_flight (cf : sts.Config) (R : string)
    (r0 : Credentials + error) (n : nat) (schedule : list nat) :
  sts.Issue cf (sts.roleARN cf R) (sts.SessionName cf) 0 = r0 ->
  sts.settled cf r0 ->
  (sts.issuances (sts.roleARN cf R) (sts.run cf schedule (sts.cold n R)) <= 1)%nat
  /\ (forall i role result,
        sts.callers (sts.run cf schedule (sts.cold n R)) !! i
        = Some (role, sts.Received result) ->
        role = R /\ result = r0)
  /\ (forall i j a b,
        sts.callers (sts.run cf schedule (sts.cold n R)) !! i
        = Some (R, sts.Received (inl a)) ->
        sts.callers (sts.run cf schedule (sts.cold n R)) !! j
        = Some (R, sts.Received (inl b)) ->
        a = b /\ AccessKeyId a = AccessKeyId b)
  /\ (forall issuer rest,
        schedule = issuer :: rest ->
        (issuer < n)%nat ->
        issuer ∈ rest ->
        (forall i, (i < n)%nat -> i ∈ schedule) ->
        sts.issuances (sts.roleARN cf R) (sts.run cf schedule (sts.cold n R)) = 1%nat
        /\ sts.callers (sts.run cf schedule (sts.cold n R))
           = replicate n (R, sts.Received r0)).
Proof.
  intros Hissue Hsettled.
  pose proof (inv_run cf R r0 Hissue Hsettled schedule _ (inv_cold cf R r0 n))
    as Hinv.
  split; [by apply (inv_issuances cf R r0)|].
  split.
  { intros i role result Hi. split; [|by apply (inv_received cf R r0 _ _ _ _ Hinv Hi)].
    destruct Hinv as [_ Hcallers].
    by destruct (Forall_lookup_1 _ _ _ _ Hcallers Hi) as [? _]. }
  split.
  - intros i j a b Ha Hb.
    pose proof (inv_received cf R r0 _ _ _ _ Hinv Ha) as Ea.
    pose proof (inv_received cf R r0 _ _ _ _ Hinv Hb) as Eb.
    assert (a = b) as -> by congruence. done.
  - intros issuer rest -> Hissuer Hagain Hall.
    destruct (run_delivers cf R r0 Hissue Hsettled n issuer rest Hissuer Hagain Hall)
      as [Hissued Hcallers].
    split; [by apply (issuances_one cf R)|exact Hcallers].
Qed.

(** Scenario 5: a hundred callers of [CredentialsForRole("reader")] on a
    cold cache.  Caller 7 takes the first step, callers 3 and 42 and then
    callers 0 to 6 attach to its issuance while it is in flight, caller 7
    completes it, and the callers after 7 find the slot valid. *)
Lemma CredentialsForRole_single_flight_witness :
  (sts.issuances (sts.roleARN scenario.cache "reader")
     (sts.run scenario.cache (7 :: 3 :: 42 :: seq 0 100)%nat (sts.cold 100 "reader"))
   <= 1)%nat
  /\ (forall i role result,
        sts.callers
          (sts.run scenario.cache (7 :: 3 :: 42 :: seq 0 100)%nat
             (sts.cold 100 "reader")) !! i
        = Some (role, sts.Received result) ->
        role = "reader" /\ result = inl scenario.readerCredentials)
  /\ (forall i j a b,
        sts.callers
          (sts.run scenario.cache (7 :: 3 :: 42 :: seq 0 100)%nat
             (sts.cold 100 "reader")) !! i
        = Some ("reader", sts.Received (inl a)) ->
        sts.callers
          (sts.run scenario.cache (7 :: 3 :: 42 :: seq 0 100)%nat
             (sts.cold 100 "reader")) !! j
        = Some ("reader", sts.Received (inl b)) ->
        a = b /\ AccessKeyId a = AccessKeyId b)
  /\ sts.issuances (sts.roleARN scenario.cache "reader")
       (sts.run scenario.cache (7 :: 3 :: 42 :: seq 0 100)%nat (sts.cold 100 "reader"))
     = 1%nat
  /\ sts.callers
       (sts.run scenario.cache (7 :: 3 :: 42 :: seq 0 100)%nat (sts.cold 100 "reader"))
     = replicate 100 ("reader", sts.Received (inl scenario.readerCredentials)).
Proof.
  destruct (CredentialsForRole_single_flight scenario.cache "reader"
              (inl scenario.readerCredentials) 100
              (7 :: 3 :: 42 :: seq 0 100)%nat eq_refl eq_refl)
    as (Hmost & Hsame & Hkey & Hall).
  split; [exact Hmost|]. split; [exact Hsame|]. split; [exact Hkey|].
  apply (Hall 7%nat (3 :: 42 :: seq 0 100)%nat); [reflexivity|lia| |].
  - do 2 apply list_elem_of_further. apply elem_of_seq. lia.
  - intros i Hi. do 3 apply list_elem_of_further. apply elem_of_seq. lia.
Defined.

(** Two runs in which callers wait on the promise of an issuance in
    flight.  Caller 7 issues, callers 3 and 42 wait on its promise and
    receive the record with it, callers 99 and 0 find the slot valid, and
    caller 1, which takes no step, is still calling; one issuance in all.
    Callers of a role that the gateway denies share the one error in the
    same way. *)
Example single_flight_scenario :
  (fun c => (sts.issued c,
             sts.callers c !! 7%nat, sts.callers c !! 3%nat,
             sts.callers c !! 99%nat, sts.callers c !! 1%nat))
    (sts.run scenario.cache [7; 3; 7; 42; 3; 99; 0; 7]%nat (sts.cold 100 "reader"))
  = (["arn:aws:iam::123456789012:role/reader"],
     Some ("reader", sts.Received (inl scenario.readerCredentials)),
     Some ("reader", sts.Received (inl scenario.readerCredentials)),
     Some ("reader", sts.Received (inl scenario.readerCredentials)),
     Some ("reader", sts.Calling))
  /\ (fun c => (sts.issued c, sts.callers c))
       (sts.run scenario.cache [1; 0; 1; 2; 0]%nat (sts.cold 3 "admin"))
     = (["arn:aws:iam::123456789012:role/admin"],
        replicate 3 ("admin", sts.Received (inr (Errorf "AccessDenied")))).
Proof. split; vm_compute; reflexivity. Qed.

(* C5 is left open.  What the handler does when [credentialsForRole]
    fails turns on what [ctx.Err()] is at that moment, and
    [credentialsForRole] is not among the sources.  When the context is
    done the handler answers 500 with the context's error, as is shown
    among the further properties below; a failure on a context that is
    live would make it read [ctx.Err().Error()] through a nil error.
    Whether the helper can fail on a live context cannot be told from the
    handler. *)

(** C6.  On a successful request the body is the JSON object of the seven
    fields followed by a line feed and the status is 200, but the header
    block was frozen by the first write of the body: its Content-Type is
    what the sniffer makes of the body, and "application/json" reaches only
    the handler's own header map, after the fact. *)
Theorem Content_Type_is_set_after_the_body (rt : Runtime) (h : Helpers)
    (s : Server) (req : Request) (σ : World) (ip role : string)
    (c : Credentials) :
  W σ = NewResponseWriter None ->
  Server_clientIP s req = (ip, None) ->
  findRole h ip = (role, None) ->
  role <> EmptyString ->
  Get (Vars req) "role" = role ->
  credentialsForRole h role = (Some c, None) ->
  exists resp,
    response (serveCredentials rt h s req σ) = Some resp
    /\ StatusCode resp = StatusOK
    /\ ResponseBody resp
       = ("{" +:+ member rt "Code" (Code c)
          +:+ "," +:+ member rt "Type" (Type_ c)
          +:+ "," +:+ member rt "AccessKeyId" (AccessKeyId c)
          +:+ "," +:+ member rt "SecretAccessKey" (SecretAccessKey c)
          +:+ "," +:+ member rt "Token" (Token c)
          +:+ "," +:+ member rt "Expiration" (Expiration c)
          +:+ "," +:+ member rt "LastUpdated" (LastUpdated c)
          +:+ "}") +:+ LF
    /\ Header resp !! "Content-Type"
       = Some (DetectContentType rt (ResponseBody resp))
    /\ HandlerHeader (W (snd (serveCredentials rt h s req σ))) !! "Content-Type"
       = Some "application/json".
Proof.
  intros Hw Hip Hrole Hne Hreq Hcreds.
  unfold serveCredentials, errorHandler.
  rewrite (credentialsHandler_success rt h s req σ ip role (Some c)) by done.
  eexists. split; [reflexivity|]. cbn.
  repeat split; by rewrite lookup_insert_eq.
Qed.

Lemma Content_Type_is_set_after_the_body_witness :
  exists resp,
    response (serveCredentials scenario.runtime scenario.granted
                (scenario.agent (NewConfig 8181) 0)
                (scenario.request "10.0.0.5:40000" "reader" None) (NewWorld None))
    = Some resp
    /\ StatusCode resp = StatusOK
    /\ ResponseBody resp
       = ("{" +:+ member scenario.runtime "Code" "Success"
          +:+ "," +:+ member scenario.runtime "Type" "AWS-HMAC"
          +:+ "," +:+ member scenario.runtime "AccessKeyId" "ASIAREADER"
          +:+ "," +:+ member scenario.runtime "SecretAccessKey" "secret"
          +:+ "," +:+ member scenario.runtime "Token" "token"
          +:+ "," +:+ member scenario.runtime "Expiration" "2017-12-01T12:00:00Z"
          +:+ "," +:+ member scenario.runtime "LastUpdated" "2017-12-01T11:00:00Z"
          +:+ "}") +:+ LF
    /\ Header resp !! "Content-Type" = Some "text/plain; charset=utf-8"
    /\ HandlerHeader
         (W (snd (serveCredentials scenario.runtime scenario.granted
                    (scenario.agent (NewConfig 8181) 0)
                    (scenario.request "10.0.0.5:40000" "reader" None)
                    (NewWorld None)))) !! "Content-Type"
       = Some "application/json".
Proof.
  apply (Content_Type_is_set_after_the_body scenario.runtime scenario.granted
           (scenario.agent (NewConfig 8181) 0)
           (scenario.request "10.0.0.5:40000" "reader" None) (NewWorld None)
           "10.0.0.5" "reader" scenario.readerCredentials);
    [reflexivity | reflexivity | reflexivity | discriminate
    | reflexivity | reflexivity].
Defined.

(** C7, as amended.  When the finder resolves the source IP to an empty
    role name, the credentials handler marks the empty-role meter and
    returns 404 with [EmptyRoleError], which the endpoint sends as 404 and
    not as 403, and the provider is not called.  The role-name handler
    takes the empty role for a pod that is not known yet: while every
    lookup yields it, the request's context is never done and the budget
    is not 0, it looks the IP up again and again and returns 404 "pod not
    found for ip" once more than [MaxElapsedTime] has passed, which the
    endpoint sends as plain text; and whatever the request's context, what
    it answers is that 404 or 500 with the context's error, never 403 and
    never 200. *)
Theorem empty_role_is_not_found (rt : Runtime) (h : Helpers) (tm : Timing)
    (s : Server) (req : Request) (σ : World) (ip : string) :
  W σ = NewResponseWriter None ->
  Server_clientIP s req = (ip, None) ->
  findRole h ip = (EmptyString, None) ->
  (forall n, finder s n ip = (EmptyString, None)) ->
  Ctx req = None ->
  MaxElapsedTime (cfg s) <> 0 ->
  (forall n, 0 <= latency tm n) ->
  (forall n, 0 < draw tm n) ->
  credentialsHandler rt h s req σ
  = (Returned StatusNotFound (Some (EmptyRoleError h)),
     emit (MeterMark "credentialsHandler.emptyRole") (emit (FindRoleCall ip) σ))
  /\ response (serveCredentials rt h s req σ)
     = Some {| StatusCode := StatusNotFound;
               Header := plainTextHeader;
               ResponseBody := Error (EmptyRoleError h) +:+ LF |}
  /\ StatusNotFound <> StatusForbidden
  /\ (exists fuel σ',
        (forall more,
           roleNameHandler rt tm (fuel + more) s req σ
           = Some (Returned StatusNotFound
                     (Some (Errorf ("pod not found for ip " +:+ ip))), σ'))
        /\ MaxElapsedTime (cfg s) < Now σ' - Now σ
        /\ (forall more,
              serveRoleName rt tm (fuel + more) s req σ ≫= response
              = Some {| StatusCode := StatusNotFound;
                        Header := plainTextHeader;
                        ResponseBody := ("pod not found for ip " +:+ ip) +:+ LF |}))
  /\ (forall (req' : Request) (σ0 σ' : World) fuel status err,
        Server_clientIP s req' = (ip, None) ->
        roleNameHandler rt tm fuel s req' σ0 = Some (Returned status err, σ') ->
        (status = StatusNotFound
         /\ err = Some (Errorf ("pod not found for ip " +:+ ip)))
        \/ (status = StatusInternalServerError
            /\ exists t ce, Ctx req' = Some (t, ce) /\ err = Some ce)).
Proof.
  intros Hw Hip Hrole Hnone Hctx Hbudget Hlat Hdraw.
  pose proof (credentialsHandler_empty_role rt h s req σ ip Hip Hrole) as Hc.
  split; [exact Hc|]. split.
  { unfold serveCredentials, errorHandler. rewrite Hc.
    by apply errorResponse_of_error. }
  split; [discriminate|]. split.
  - destruct (Retry_no_pod tm s ip (Now σ)
                (S (Z.to_nat (MaxElapsedTime (cfg s) + 1))) 0 σ None
                Hnone Hbudget Hlat Hdraw)
      as (σ1 & k & Hrun & Hlate & Hw1 & _).
    { replace (Now σ - Now σ) with 0 by lia. lia. }
    exists (S (Z.to_nat (MaxElapsedTime (cfg s) + 1))),
      (emit (MeterMark "roleNameHandler.podNotFound") σ1).
    assert (Hh : roleNameHandler rt tm (S (Z.to_nat (MaxElapsedTime (cfg s) + 1)))
                   s req σ
                 = Some (Returned StatusNotFound
                           (Some (Errorf ("pod not found for ip " +:+ ip))),
                         emit (MeterMark "roleNameHandler.podNotFound") σ1)).
    { rewrite (roleNameHandler_live rt tm s ip) by done. by rewrite Hrun. }
    split; [intros more; by apply roleNameHandler_more_fuel|].
    split; [exact Hlate|].
    intros more. unfold serveRoleName.
    rewrite (roleNameHandler_more_fuel rt tm s _ more _ _ _ Hh).
    cbn [fmap option_fmap option_map mbind option_bind].
    apply errorResponse_of_error. cbn [emit W]. congruence.
  - intros req' σ0 σ' fuel status err Hip' Hrun.
    exact (roleNameHandler_no_pod_answers rt tm fuel s req' σ0 σ' ip status err
             Hip' Hnone Hrun).
Qed.

Lemma empty_role_is_not_found_witness :
  credentialsHandler scenario.runtime scenario.granted
    (cases.stubAgent (NewConfig 8181) id (testutil.NewStubFinder (Some EmptyString)))
    (scenario.request "10.0.0.7:40000" "reader" None) (NewWorld None)
  = (Returned StatusNotFound (Some (EmptyRoleError scenario.granted)),
     emit (MeterMark "credentialsHandler.emptyRole")
       (emit (FindRoleCall "10.0.0.7") (NewWorld None)))
  /\ response (serveCredentials scenario.runtime scenario.granted
                 (cases.stubAgent (NewConfig 8181) id
                    (testutil.NewStubFinder (Some EmptyString)))
                 (scenario.request "10.0.0.7:40000" "reader" None) (NewWorld None))
     = Some {| StatusCode := StatusNotFound;
               Header := plainTextHeader;
               ResponseBody := Error (EmptyRoleError scenario.granted) +:+ LF |}
  /\ StatusNotFound <> StatusForbidden
  /\ (exists fuel σ',
        (forall more,
           roleNameHandler scenario.runtime scenario.timing (fuel + more)
             (cases.stubAgent (NewConfig 8181) id
                (testutil.NewStubFinder (Some EmptyString)))
             (scenario.request "10.0.0.7:40000" "reader" None) (NewWorld None)
           = Some (Returned StatusNotFound
                     (Some (Errorf ("pod not found for ip " +:+ "10.0.0.7"))), σ'))
        /\ MaxElapsedTime
             (cfg (cases.stubAgent (NewConfig 8181) id
                     (testutil.NewStubFinder (Some EmptyString))))
           < Now σ' - Now (NewWorld None)
        /\ (forall more,
              serveRoleName scenario.runtime scenario.timing (fuel + more)
                (cases.stubAgent (NewConfig 8181) id
                   (testutil.NewStubFinder (Some EmptyString)))
                (scenario.request "10.0.0.7:40000" "reader" None) (NewWorld None)
              ≫= response
              = Some {| StatusCode := StatusNotFound;
                        Header := plainTextHeader;
                        ResponseBody :=
                          ("pod not found for ip " +:+ "10.0.0.7") +:+ LF |}))
  /\ (forall (req' : Request) (σ0 σ' : World) fuel status err,
        Server_clientIP
          (cases.stubAgent (NewConfig 8181) id
             (testutil.NewStubFinder (Some EmptyString))) req'
        = ("10.0.0.7", None) ->
        roleNameHandler scenario.runtime scenario.timing fuel
          (cases.stubAgent (NewConfig 8181) id
             (testutil.NewStubFinder (Some EmptyString))) req' σ0
        = Some (Returned status err, σ') ->
        (status = StatusNotFound
         /\ err = Some (Errorf ("pod not found for ip " +:+ "10.0.0.7")))
        \/ (status = StatusInternalServerError
            /\ exists t ce, Ctx req' = Some (t, ce) /\ err = Some ce)).
Proof.
  apply (empty_role_is_not_found scenario.runtime scenario.granted scenario.timing
           (cases.stubAgent (NewConfig 8181) id
              (testutil.NewStubFinder (Some EmptyString)))
           (scenario.request "10.0.0.7:40000" "reader" None) (NewWorld None)
           "10.0.0.7");
    [reflexivity | reflexivity | reflexivity | intros n; reflexivity | reflexivity
    | discriminate | intros n; discriminate
    | intros n; apply grow_positive; reflexivity].
Defined.

(** C7, the counterexample.  The pod at 10.0.0.7 exists and has no role
    annotation, so that every lookup yields an empty role, and the client
    gives up after one second: the role-name handler returns 500 "context
    canceled" at that second, and not 404. *)
Lemma cancelled_request_of_pod_without_role_is_500 :
  (forall ip,
     testutil.FindRoleFromIP id (testutil.NewStubFinder (Some EmptyString)) ip
     = (EmptyString, None))
  /\ (forall more,
        roleNameHandler scenario.runtime scenario.timing (2 + more)
          (cases.stubAgent (NewConfig 8181) id
             (testutil.NewStubFinder (Some EmptyString)))
          (scenario.request "10.0.0.7:40000" EmptyString (Some (Second, Canceled)))
          (NewWorld None)
        = Some (Returned StatusInternalServerError (Some Canceled),
                {| W := NewResponseWriter None;
                   Trace := [FindRoleCall "10.0.0.7"; FindRoleCall "10.0.0.7"];
                   Now := Second |}))
  /\ (forall more,
        serveRoleName scenario.runtime scenario.timing (2 + more)
          (cases.stubAgent (NewConfig 8181) id
             (testutil.NewStubFinder (Some EmptyString)))
          (scenario.request "10.0.0.7:40000" EmptyString (Some (Second, Canceled)))
          (NewWorld None)
        ≫= response
        = Some {| StatusCode := StatusInternalServerError;
                  Header := plainTextHeader;
                  ResponseBody := "context canceled" +:+ LF |})
  /\ StatusInternalServerError <> StatusNotFound.
Proof.
  split; [intros ip; reflexivity|].
  assert (Hrun : forall more,
            roleNameHandler scenario.runtime scenario.timing (2 + more)
              (cases.stubAgent (NewConfig 8181) id
                 (testutil.NewStubFinder (Some EmptyString)))
              (scenario.request "10.0.0.7:40000" EmptyString
                 (Some (Second, Canceled)))
              (NewWorld None)
            = Some (Returned StatusInternalServerError (Some Canceled),
                    {| W := NewResponseWriter None;
                       Trace := [FindRoleCall "10.0.0.7"; FindRoleCall "10.0.0.7"];
                       Now := Second |})).
  { intros more. apply roleNameHandler_more_fuel. vm_compute. reflexivity. }
  split; [exact Hrun|]. split; [|discriminate].
  intros more. unfold serveRoleName. rewrite Hrun. reflexivity.
Qed.


(** A request whose peer address has no port. *)
Example RemoteAddr_without_port_scenario :
  response (serveCredentials scenario.runtime scenario.granted
              (scenario.agent (NewConfig 8181) 0)
              (scenario.request "10.0.0.5" "reader" None) (NewWorld None))
  = Some {| StatusCode := StatusInternalServerError;
            Header := plainTextHeader;
            ResponseBody :=
              "error parsing client ip : incorrect format, expected ip:port, was: 10.0.0.5"
              +:+ LF |}.
Proof. reflexivity. Qed.

(** C9, on the failing input.  With [AllowIPQuery] set and [ip=10.0.0.9] in
    the query, [buildClientIP] gives 10.0.0.9, but [Server.clientIP], which
    the two handlers call, gives the peer address 10.0.0.5, and it is for
    10.0.0.5 that the handlers ask the finder. *)
Theorem AllowIPQuery_ignored_by_Server_clientIP :
  AllowIPQuery scenario.debugConfig = true
  /\ Get (Form (ParseForm scenario.queryRequest)) "ip" = "10.0.0.9"
  /\ buildClientIP scenario.debugConfig (ParseForm scenario.queryRequest)
     = ("10.0.0.9", None)
  /\ Server_clientIP (scenario.agent scenario.debugConfig 0)
       (ParseForm scenario.queryRequest)
     = ("10.0.0.5", None)
  /\ Trace (snd (credentialsHandler scenario.runtime scenario.granted
                   (scenario.agent scenario.debugConfig 0)
                   scenario.queryRequest (NewWorld None)))
     = [FindRoleCall "10.0.0.5"; CredentialsForRoleCall "reader";
        MeterMark "credentialsHandler.success"]
  /\ (Trace ∘ snd) <$> roleNameHandler scenario.runtime scenario.timing 1
                         (scenario.agent scenario.debugConfig 0)
                         scenario.queryRequest (NewWorld None)
     = Some [FindRoleCall "10.0.0.5"; MeterMark "roleNameHandler.success"].
Proof. repeat split; vm_compute; reflexivity. Qed.

(** C10.  [ParseClientIP] returns an error exactly when the address has no
    colon; an address with a colon is cut at its last colon and what stands
    before it is returned without an error, inner colons kept.  The three
    addresses of the claim are evaluated. *)
Theorem ParseClientIP_cuts_at_last_colon (addr : string) :
  (snd (ParseClientIP addr) <> None <-> strings.ContainsByte addr colon = false)
  /\ (strings.ContainsByte addr colon = true ->
      exists ip port,
        addr = ip +:+ String colon port
        /\ strings.ContainsByte port colon = false
        /\ ParseClientIP addr = (ip, None))
  /\ (forall ip port,
        strings.ContainsByte port colon = false ->
        ParseClientIP (ip +:+ String colon port) = (ip, None))
  /\ ParseClientIP "a:b:c:80" = ("a:b:c", None)
  /\ ParseClientIP "[::1]:80" = ("[::1]", None)
  /\ ParseClientIP ":80" = (EmptyString, None).
Proof.
  split; [apply ParseClientIP_error_iff|].
  split.
  { intros H. destruct (last_sep addr colon H) as (ip & port & -> & Hport).
    exists ip, port. split; [done|]. split; [done|].
    by apply ParseClientIP_last_colon. }
  split; [intros ip port; apply ParseClientIP_last_colon|].
  repeat split; reflexivity.
Qed.

(** * Further properties of the code

    ** The credentials handler *)

Ltac no_provider_call H :=
  repeat (apply elem_of_cons in H as [H|H]; [discriminate H|]);
  by apply elem_of_nil in H.

Ltac one_call :=
  let i := fresh "i" in
  let j := fresh "j" in
  let Hi := fresh "Hi" in
  let Hj := fresh "Hj" in
  intros i j ? ? Hi Hj;
  destruct i as [|[|[|i]]], j as [|[|[|j]]]; simpl in Hi, Hj;
  try discriminate Hi; try discriminate Hj; reflexivity.

(** The handler calls the helper [credentialsForRole] at most once in a
    request, and only with the role that the finder gave for the client's
    IP, which is not empty and is the role the request names; when it
    returns 200 it has called the helper with that role.  ([added] is what
    the handler adds to the trace, which records the calls of the helper;
    how often the helper asks the provider behind it is not the
    handler's.) *)
Theorem credentials_only_for_the_role_of_the_pod (rt : Runtime) (h : Helpers)
    (s : Server) (req : Request) (σ : World) :
  exists added,
    Trace (snd (credentialsHandler rt h s req σ)) = Trace σ ++ added
    /\ (forall i j role1 role2,
          added !! i = Some (CredentialsForRoleCall role1) ->
          added !! j = Some (CredentialsForRoleCall role2) ->
          i = j)
    /\ (forall role,
          CredentialsForRoleCall role ∈ added ->
          exists ip,
            Server_clientIP s req = (ip, None)
            /\ findRole h ip = (role, None)
            /\ role <> EmptyString
            /\ Get (Vars req) "role" = role)
    /\ (forall err,
          fst (credentialsHandler rt h s req σ) = Returned StatusOK err ->
          CredentialsForRoleCall (Get (Vars req) "role") ∈ added).
Proof.
  unfold credentialsHandler. rewrite Server_clientIP_ParseForm.
  destruct (Server_clientIP s req) as [ip [e|]] eqn:Hip.
  { exists []. simpl. rewrite app_nil_r. split; [reflexivity|].
    split; [one_call|split; [|discriminate]].
    intros role H. by apply elem_of_nil in H. }
  destruct (findRole h ip) as [foundRole [e|]] eqn:Hrole.
  { eexists. cbn [snd emit Trace]. rewrite <- app_assoc.
    split; [reflexivity|]. split; [one_call|split; [|discriminate]].
    intros role H. no_provider_call H. }
  destruct (decide (foundRole = EmptyString)) as [Hempty|Hne].
  { eexists. cbn [snd emit Trace]. rewrite <- app_assoc.
    split; [reflexivity|]. split; [one_call|split; [|discriminate]].
    intros role H. no_provider_call H. }
  cbn [Vars ParseForm].
  destruct (decide (Get (Vars req) "role" = EmptyString)) as [Hnone|Hreq].
  { eexists. cbn [snd emit Trace].
    split; [reflexivity|]. split; [one_call|split; [|discriminate]].
    intros role H. no_provider_call H. }
  destruct (decide (foundRole <> Get (Vars req) "role")) as [Hdiff|Hsame].
  { eexists. cbn [snd emit Trace].
    split; [reflexivity|]. split; [one_call|split; [|discriminate]].
    intros role H. no_provider_call H. }
  assert (foundRole = Get (Vars req) "role") as Heq
    by (destruct (decide (foundRole = Get (Vars req) "role")); [done|contradiction]).
  assert (Hcall : forall (rest : list Event) (role : string),
            (forall r, CredentialsForRoleCall r ∈ rest -> False) ->
            CredentialsForRoleCall role
              ∈ FindRoleCall ip :: CredentialsForRoleCall (Get (Vars req) "role") :: rest ->
            exists ip0,
              Server_clientIP s req = (ip0, None)
              /\ findRole h ip0 = (role, None)
              /\ role <> EmptyString
              /\ Get (Vars req) "role" = role).
  { intros rest role Hrest H.
    apply elem_of_cons in H as [H|H]; [discriminate H|].
    apply elem_of_cons in H as [H|H]; [|by apply Hrest in H].
    injection H as ->. exists ip. rewrite Hip, Hrole, Heq. repeat split. congruence. }
  destruct (credentialsForRole h (Get (Vars req) "role")) as [c [e|]].
  { destruct (ctx_Err h) as [ce|]; eexists; cbn [snd emit Trace];
      rewrite <- app_assoc; (split; [reflexivity|]);
      (split; [one_call|split; [|discriminate]]);
      intros role H; rewrite <- Hip; apply (Hcall [] role);
      first [exact H | intros r Hr; by apply elem_of_nil in Hr]. }
  match goal with
  | |- context [Encode ?a ?b ?w] => destruct (Encode a b w) as [w' [e|]]
  end.
  - eexists. cbn [snd emit setW Trace]. rewrite <- app_assoc.
    split; [reflexivity|]. split; [one_call|split; [|discriminate]].
    intros role H. rewrite <- Hip. apply (Hcall [] role); [|exact H].
    intros r Hr. by apply elem_of_nil in Hr.
  - eexists. cbn [snd emit setW Trace]. rewrite <- !app_assoc.
    split; [reflexivity|]. split; [one_call|split].
    + intros role H. rewrite <- Hip.
      apply (Hcall [MeterMark "credentialsHandler.success"] role); [|exact H].
      intros r Hr. no_provider_call Hr.
    + intros err _. apply elem_of_cons. right. apply elem_of_cons. by left.
Qed.

Lemma Write_alive (rt : Runtime) (data : string) (w : ResponseWriter) :
  ConnErr w = None ->
  snd (Write rt data w) = None
  /\ Body (fst (Write rt data w)) = Body w +:+ data
  /\ ConnErr (fst (Write rt data w)) = None.
Proof.
  intros Hconn. unfold Write, sniff, WriteHeader.
  destruct (WroteHeader w) eqn:Hwrote; cbn [SentHeader].
  - rewrite Hconn. by cbn.
  - destruct (HandlerHeader w !! "Content-Type"); cbn; rewrite Hconn; by cbn.
Qed.

(** On a connection that is alive the handler either returns 200 and no
    error, having added to the body the JSON encoding, with a line feed, of
    what the provider issued for the requested role, or it returns 400, 403,
    404 or 500 with an error and has left the response writer as it was, so
    that what the adapter writes for the error is the whole response. *)
Theorem credentialsHandler_writes_only_on_success (rt : Runtime) (h : Helpers)
    (s : Server) (req : Request) (σ σ' : World) (status : Z) (err : option error) :
  ConnErr (W σ) = None ->
  credentialsHandler rt h s req σ = (Returned status err, σ') ->
  (status = StatusOK /\ err = None
   /\ exists c,
        credentialsForRole h (Get (Vars req) "role") = (c, None)
        /\ Body (W σ') = Body (W σ) +:+ (json_Marshal rt c +:+ LF))
  \/ ((status = StatusBadRequest \/ status = StatusForbidden
       \/ status = StatusNotFound \/ status = StatusInternalServerError)
      /\ err <> None /\ W σ' = W σ).
Proof.
  intros Hconn. unfold credentialsHandler. rewrite Server_clientIP_ParseForm.
  destruct (Server_clientIP s req) as [ip [e|]];
    [intros [= <- <- <-]; right; auto 6|].
  destruct (findRole h ip) as [foundRole [e|]];
    [intros [= <- <- <-]; right; auto 6|].
  destruct (decide (foundRole = EmptyString));
    [intros [= <- <- <-]; right; auto 6|].
  cbn [Vars ParseForm].
  destruct (decide (Get (Vars req) "role" = EmptyString));
    [intros [= <- <- <-]; right; auto 6|].
  destruct (decide (foundRole <> Get (Vars req) "role"));
    [intros [= <- <- <-]; right; auto 6|].
  destruct (credentialsForRole h (Get (Vars req) "role")) as [c [e|]].
  { destruct (ctx_Err h); [|discriminate]. intros [= <- <- <-]; right; auto 6. }
  unfold Encode. cbn [emit W].
  destruct (Write_alive rt (json_Marshal rt c +:+ LF) (W σ) Hconn)
    as (Hnil & Hbody & _).
  destruct (Write rt (json_Marshal rt c +:+ LF) (W σ)) as [w [e|]];
    [discriminate Hnil|].
  intros [= <- <- <-]. left. repeat split. exists c. split; [done|].
  exact Hbody.
Qed.

Lemma credentialsHandler_writes_only_on_success_witness :
  exists c,
    credentialsForRole scenario.granted "reader" = (c, None)
    /\ Body (W (snd (credentialsHandler scenario.runtime scenario.granted
                       (scenario.agent (NewConfig 8181) 0)
                       (scenario.request "10.0.0.5:40000" "reader" None)
                       (NewWorld None))))
       = json_Marshal scenario.runtime c +:+ LF.
Proof.
  destruct (credentialsHandler_writes_only_on_success scenario.runtime
              scenario.granted (scenario.agent (NewConfig 8181) 0)
              (scenario.request "10.0.0.5:40000" "reader" None)
              (NewWorld None) _ StatusOK None eq_refl eq_refl)
    as [(_ & _ & c & Hc & Hbody)|(Habs & _)].
  - exists c. split; [exact Hc|exact Hbody].
  - exfalso. unfold StatusOK, StatusBadRequest, StatusForbidden, StatusNotFound,
      StatusInternalServerError in Habs. lia.
Defined.

(** When the helper [credentialsForRole] fails for the role of the pod and
    the handler's context is done, the credentials endpoint answers 500 in
    plain text with "unexpected error:" and the error of the context,
    whatever the error of the helper and whatever credentials came with
    it; it marks the 5xx response meter and no meter of the handler. *)
Theorem failed_issuance_reports_the_context_error (rt : Runtime) (h : Helpers)
    (s : Server) (req : Request) (σ : World) (ip role : string)
    (c : option Credentials) (e ce : error) :
  W σ = NewResponseWriter None ->
  Server_clientIP s req = (ip, None) ->
  findRole h ip = (role, None) ->
  role <> EmptyString ->
  Get (Vars req) "role" = role ->
  credentialsForRole h role = (c, Some e) ->
  ctx_Err h = Some ce ->
  fst (serveCredentials rt h s req σ)
  = Returned StatusInternalServerError
      (Some (Errorf ("unexpected error: " +:+ Error ce)))
  /\ response (serveCredentials rt h s req σ)
     = Some {| StatusCode := StatusInternalServerError;
               Header := plainTextHeader;
               ResponseBody := ("unexpected error: " +:+ Error ce) +:+ LF |}
  /\ Trace (snd (serveCredentials rt h s req σ))
     = Trace σ ++ [FindRoleCall ip; CredentialsForRoleCall role;
                   MeterMark "handlerResponse-credentials.5xx"].
Proof.
  intros Hw Hip Hrole Hne Hreq Hfail Hctx.
  unfold serveCredentials, errorHandler.
  rewrite (credentialsHandler_provider_error rt h s req σ ip role c e
             Hip Hrole Hne Hreq Hfail), Hctx.
  split; [reflexivity|]. split.
  - by rewrite errorResponse_of_error.
  - rewrite errorResponse_trace. cbn [emit Trace].
    rewrite <- !app_assoc. reflexivity.
Qed.

Lemma failed_issuance_reports_the_context_error_witness :
  response
    (serveCredentials scenario.runtime
       (scenario.helpers (None, Some DeadlineExceeded) (Some DeadlineExceeded))
       (scenario.agent (NewConfig 8181) 0)
       (scenario.request "10.0.0.5:40000" "reader" None) (NewWorld None))
  = Some {| StatusCode := StatusInternalServerError;
            Header := plainTextHeader;
            ResponseBody := ("unexpected error: " +:+ Error DeadlineExceeded) +:+ LF |}.
Proof.
  exact (proj1 (proj2
    (failed_issuance_reports_the_context_error scenario.runtime
       (scenario.helpers (None, Some DeadlineExceeded) (Some DeadlineExceeded))
       (scenario.agent (NewConfig 8181) 0)
       (scenario.request "10.0.0.5:40000" "reader" None) (NewWorld None)
       "10.0.0.5" "reader" None DeadlineExceeded DeadlineExceeded
       eq_refl eq_refl eq_refl ltac:(discriminate) eq_refl eq_refl eq_refl))).
Defined.

(** ** The adapter between a handler and net/http *)



(** When the finder fails for the client's IP, the credentials endpoint
    answers 500 in plain text with "error finding pod for ip", the IP and
    the finder's error, whatever role the finder returned with the error;
    it marks the meter of the failed lookup and the 5xx response meter,
    and does not ask the provider. *)
Theorem finder_error_is_500 (rt : Runtime) (h : Helpers) (s : Server)
    (req : Request) (σ : World) (ip role : string) (e : error) :
  W σ = NewResponseWriter None ->
  Server_clientIP s req = (ip, None) ->
  findRole h ip = (role, Some e) ->
  response (serveCredentials rt h s req σ)
  = Some {| StatusCode := StatusInternalServerError;
            Header := plainTextHeader;
            ResponseBody := ("error finding pod for ip " +:+ ip +:+ ": "
                             +:+ Error e) +:+ LF |}
  /\ Trace (snd (serveCredentials rt h s req σ))
     = Trace σ ++ [FindRoleCall ip;
                   MeterMark "credentialsHandler.findRoleError";
                   MeterMark "handlerResponse-credentials.5xx"].
Proof.
  intros Hw Hip Hrole. unfold serveCredentials, errorHandler, credentialsHandler.
  rewrite Server_clientIP_ParseForm, Hip, Hrole. split.
  - rewrite errorResponse_of_error by exact Hw. reflexivity.
  - rewrite errorResponse_trace. cbn [emit Trace].
    rewrite <- !app_assoc. reflexivity.
Qed.

Lemma finder_error_is_500_witness :
  response (serveCredentials scenario.runtime cases.refusing
              (scenario.agent (NewConfig 8181) 0)
              (scenario.request "10.0.0.5:40000" "reader" None) (NewWorld None))
  = Some {| StatusCode := StatusInternalServerError;
            Header := plainTextHeader;
            ResponseBody := ("error finding pod for ip 10.0.0.5: "
                             +:+ Error ErrPolicyForbidden) +:+ LF |}.
Proof.
  exact (proj1
    (finder_error_is_500 scenario.runtime cases.refusing (scenario.agent (NewConfig 8181) 0)
       (scenario.request "10.0.0.5:40000" "reader" None) (NewWorld None)
       "10.0.0.5" "reader" ErrPolicyForbidden eq_refl eq_refl eq_refl)).
Defined.

(** With a request that has a deadline the loop ends: every round that
    does not end it moves the clock closer to the deadline. *)
Lemma Retry_ends_by_the_deadline (tm : Timing) (s : Server) (ip : string)
    (t : Z) (ce : error) (start : Z) (fuel n : nat) (st : RoleState) :
  (forall n, 0 <= latency tm n) ->
  (forall n, 0 < draw tm n) ->
  (Z.to_nat (t - roleClock st) < fuel)%nat ->
  exists r,
    backoff.Retry roleClock roleSleepUntil (roleOp tm s ip) (strategyOf tm s)
      (Some (t, ce)) start fuel n st = Some r.
Proof.
  intros Hlat Hdraw. revert n st.
  induction fuel as [|fuel IH]; intros n [σ roleCh] Hfuel; [lia|].
  rewrite Retry_S.
  destruct (roleOp tm s ip n (σ, roleCh)) as [[e|] [σ1 ch1]] eqn:Hop; [|eauto].
  assert (Hclock : Now σ1 = Now σ + latency tm n).
  { rewrite roleOp_eq in Hop. destruct (finder s n ip) as [role [e'|]].
    - by injection Hop as _ <- _.
    - destruct (decide (role = EmptyString)); [|discriminate].
      by injection Hop as _ <- _. }
  destruct (ctxDone _ _); [eauto|].
  destruct (backoff.NextBackOff _ _ _) as [next|] eqn:Hnext; [|eauto].
  apply NextBackOff_interval in Hnext. simpl in Hnext. subst next.
  destruct (bool_decide (t <= roleClock (σ1, ch1) + draw tm n)) eqn:Hwake; [eauto|].
  apply bool_decide_eq_false in Hwake.
  apply IH. unfold roleClock in *. cbn [roleSleepUntil fst setNow Now] in *.
  pose proof (Hlat n). pose proof (Hdraw n). lia.
Qed.

(** ** The role-name handler *)

(** On a connection that is alive the handler either returns 200 and no
    error, having added to the body a role, not empty, that one of its
    lookups returned without an error for the client's IP, or it returns
    404 or 500 with an error and has left the response writer as it was. *)
Theorem roleNameHandler_writes_only_a_found_role (rt : Runtime) (tm : Timing)
    (fuel : nat) (s : Server) (req : Request) (σ σ' : World) (status : Z)
    (err : option error) :
  ConnErr (W σ) = None ->
  roleNameHandler rt tm fuel s req σ = Some (Returned status err, σ') ->
  (status = StatusOK /\ err = None
   /\ exists ip n role,
        Server_clientIP s req = (ip, None)
        /\ finder s n ip = (role, None)
        /\ role <> EmptyString
        /\ Body (W σ') = Body (W σ) +:+ role)
  \/ ((status = StatusNotFound \/ status = StatusInternalServerError)
      /\ err <> None /\ W σ' = W σ).
Proof.
  intros Hconn. unfold roleNameHandler.
  destruct (Server_clientIP s req) as [ip [e|]];
    [intros [= <- <- <-]; right; auto|].
  match goal with
  | |- context [backoff.Retry ?c ?sl ?op ?b ?cx ?st fuel ?n ?x] =>
      destruct (backoff.Retry c sl op b cx st fuel n x) as [[err0 [σ1 ch]]|] eqn:Hrun;
      [|discriminate]
  end.
  destruct (Retry_looks_up_only tm s ip _ _ _ _ _ _ _ _ _ Hrun)
    as (Hw & _ & Herr).
  assert (Hresp : Some (roleNameResponse rt ip err0 (σ1, ch))
                  = Some (Returned status err, σ') ->
                  (status = StatusOK /\ err = None
                   /\ exists ip0 n role,
                        (ip, @None error) = (ip0, None)
                        /\ finder s n ip0 = (role, None)
                        /\ role <> EmptyString
                        /\ Body (W σ') = Body (W σ) +:+ role)
                  \/ ((status = StatusNotFound \/ status = StatusInternalServerError)
                      /\ err <> None /\ W σ' = W σ)).
  { unfold roleNameResponse.
    destruct (is_var "metadata.PodNotFound" err0);
      [intros [= <- <- <-]; right; auto|].
    destruct err0 as [e0|]; [intros [= <- <- <-]; right; auto|].
    destruct Herr as (k & role & Hfound & Hne & ->). cbn [default].
    unfold id. rewrite decide_False by done.
    destruct (Write_alive rt role (W σ1)) as (_ & Hbody & _); [congruence|].
    destruct (Write rt role (W σ1)) as [w werr].
    intros [= <- <- <-]. left. repeat split.
    exists ip, (0 + k)%nat, role. repeat split; [done|done|].
    cbn [emit setW W fst] in *. by rewrite Hbody, Hw. }
  destruct (Ctx req) as [[t ce]|]; [|exact Hresp].
  destruct (bool_decide (t <= roleClock (σ1, ch))); [|exact Hresp].
  intros [= <- <- <-]. right. split; [auto|]. split; [done|].
  by destruct (bool_decide (t <= Now σ)).
Qed.

Lemma roleNameHandler_writes_only_a_found_role_witness :
  exists σ',
    roleNameHandler scenario.runtime scenario.timing 3
      (scenario.agent (NewConfig 8181) 2)
      (scenario.request "10.0.0.5:40000" EmptyString None) (NewWorld None)
    = Some (Returned StatusOK None, σ')
    /\ exists ip n role,
         Server_clientIP (scenario.agent (NewConfig 8181) 2)
           (scenario.request "10.0.0.5:40000" EmptyString None) = (ip, None)
         /\ finder (scenario.agent (NewConfig 8181) 2) n ip = (role, None)
         /\ role <> EmptyString
         /\ Body (W σ') = Body (W (NewWorld None)) +:+ role.
Proof.
  eexists. split; [vm_compute; reflexivity|].
  match goal with
  | |- context [Body (W ?w)] =>
      destruct (roleNameHandler_writes_only_a_found_role scenario.runtime
                  scenario.timing 3 (scenario.agent (NewConfig 8181) 2)
                  (scenario.request "10.0.0.5:40000" EmptyString None)
                  (NewWorld None) w StatusOK None eq_refl eq_refl)
        as [(_ & _ & H)|(Habs & _)]
  end.
  - exact H.
  - exfalso. unfold StatusOK, StatusNotFound, StatusInternalServerError in Habs. lia.
Defined.

(** A finder that fails is retried like a finder that knows no pod: when
    every lookup for the client's IP fails with the same error, other than
    [PodNotFound], the request's context is never done and the budget is
    not 0, the handler looks the IP up again and again and returns 500
    "error finding pod:" with the error's text only once more than
    [MaxElapsedTime] has passed; it marks no meter of its own. *)
Theorem refusing_finder_is_500_after_the_budget (rt : Runtime) (tm : Timing)
    (s : Server) (req : Request) (σ : World) (ip : string) (e : error) :
  W σ = NewResponseWriter None ->
  Server_clientIP s req = (ip, None) ->
  (forall n, snd (finder s n ip) = Some e) ->
  is_var "metadata.PodNotFound" (Some e) = false ->
  Ctx req = None ->
  MaxElapsedTime (cfg s) <> 0 ->
  (forall n, 0 <= latency tm n) ->
  (forall n, 0 < draw tm n) ->
  exists fuel σ' k,
    (forall more,
       roleNameHandler rt tm (fuel + more) s req σ
       = Some (Returned StatusInternalServerError
                 (Some (Errorf ("error finding pod: " +:+ Error e))), σ'))
    /\ Trace σ' = Trace σ ++ replicate (S k) (FindRoleCall ip)
    /\ MaxElapsedTime (cfg s) < Now σ' - Now σ
    /\ (forall more,
          serveRoleName rt tm (fuel + more) s req σ ≫= response
          = Some {| StatusCode := StatusInternalServerError;
                    Header := plainTextHeader;
                    ResponseBody := ("error finding pod: " +:+ Error e) +:+ LF |}).
Proof.
  intros Hw Hip Hrefuse Hvar Hctx Hbudget Hlat Hdraw.
  destruct (Retry_refused tm s ip e (Now σ)
              (S (Z.to_nat (MaxElapsedTime (cfg s) + 1))) 0 σ None
              Hrefuse Hbudget Hlat Hdraw)
    as (σ1 & k & Hrun & Hlate & Hw1 & Htrace).
  { replace (Now σ - Now σ) with 0 by lia. lia. }
  exists (S (Z.to_nat (MaxElapsedTime (cfg s) + 1))), σ1, k.
  assert (Hh : roleNameHandler rt tm (S (Z.to_nat (MaxElapsedTime (cfg s) + 1))) s req σ
               = Some (Returned StatusInternalServerError
                         (Some (Errorf ("error finding pod: " +:+ Error e))), σ1)).
  { rewrite (roleNameHandler_live rt tm s ip) by done. rewrite Hrun.
    unfold roleNameResponse. by rewrite Hvar. }
  split; [intros more; by apply roleNameHandler_more_fuel|].
  split; [exact Htrace|]. split; [exact Hlate|].
  intros more. unfold serveRoleName.
  rewrite (roleNameHandler_more_fuel rt tm s _ more _ _ _ Hh).
  cbn [fmap option_fmap option_map mbind option_bind].
  apply errorResponse_of_error. congruence.
Qed.

Lemma refusing_finder_is_500_after_the_budget_witness :
  exists fuel σ' k,
    (forall more,
       roleNameHandler scenario.runtime scenario.timing (fuel + more)
         cases.refusingAgent
         (scenario.request "10.0.0.5:40000" EmptyString None) (NewWorld None)
       = Some (Returned StatusInternalServerError
                 (Some (Errorf ("error finding pod: " +:+ Error ErrPolicyForbidden))),
               σ'))
    /\ Trace σ' = Trace (NewWorld None) ++ replicate (S k) (FindRoleCall "10.0.0.5")
    /\ MaxElapsedTime (cfg cases.refusingAgent) < Now σ' - Now (NewWorld None)
    /\ (forall more,
          serveRoleName scenario.runtime scenario.timing (fuel + more)
            cases.refusingAgent
            (scenario.request "10.0.0.5:40000" EmptyString None) (NewWorld None)
          ≫= response
          = Some {| StatusCode := StatusInternalServerError;
                    Header := plainTextHeader;
                    ResponseBody :=
                      ("error finding pod: " +:+ Error ErrPolicyForbidden) +:+ LF |}).
Proof.
  apply (refusing_finder_is_500_after_the_budget scenario.runtime scenario.timing
           cases.refusingAgent
           (scenario.request "10.0.0.5:40000" EmptyString None) (NewWorld None)
           "10.0.0.5" ErrPolicyForbidden);
    [reflexivity | reflexivity | intros n; reflexivity | reflexivity | reflexivity
    | discriminate | intros n; discriminate
    | intros n; apply grow_positive; reflexivity].
Defined.

(** A request whose context ends is answered by then, whatever the finder
    does: with lookups that take no negative time and intervals above 0
    the handler returns, no later than the context is done (or at once,
    when it was done before); and an answer that does not come before the
    context is done is 500 with the context's error, the response writer
    left as it was. *)
Theorem request_with_deadline_is_answered (rt : Runtime) (tm : Timing)
    (s : Server) (req : Request) (σ : World) (ip : string) (t : Z) (ce : error) :
  Server_clientIP s req = (ip, None) ->
  Ctx req = Some (t, ce) ->
  (forall n, 0 <= latency tm n) ->
  (forall n, 0 < draw tm n) ->
  exists fuel status err σ',
    (forall more,
       roleNameHandler rt tm (fuel + more) s req σ
       = Some (Returned status err, σ'))
    /\ Now σ' <= Z.max t (Now σ)
    /\ (t <= Now σ' ->
        status = StatusInternalServerError /\ err = Some ce /\ W σ' = W σ).
Proof.
  intros Hip Hctx Hlat Hdraw.
  destruct (Retry_ends_by_the_deadline tm s ip t ce (Now σ)
              (S (Z.to_nat (t - Now σ))) 0 (σ, None) Hlat Hdraw)
    as [[err0 [σ1 ch]] Hrun]; [unfold roleClock; cbn [fst]; lia|].
  destruct (Retry_looks_up_only tm s ip _ _ _ _ _ _ _ _ _ Hrun) as (Hw & _ & _).
  assert (Hh : roleNameHandler rt tm (S (Z.to_nat (t - Now σ))) s req σ
               = Some (if bool_decide (t <= Now σ1) then
                         (Returned StatusInternalServerError (Some ce),
                          if bool_decide (t <= Now σ) then σ else setNow t σ1)
                       else roleNameResponse rt ip err0 (σ1, ch))).
  { unfold roleNameHandler. rewrite Hip, Hctx.
    unfold strategyOf in Hrun. rewrite Hrun. unfold roleClock. cbn [fst].
    by destruct (bool_decide (t <= Now σ1)). }
  destruct (bool_decide (t <= Now σ1)) eqn:Hdone.
  - exists (S (Z.to_nat (t - Now σ))), StatusInternalServerError, (Some ce),
      (if bool_decide (t <= Now σ) then σ else setNow t σ1).
    split; [intros more; by apply roleNameHandler_more_fuel|].
    destruct (bool_decide (t <= Now σ)) eqn:Hentry; cbn [setNow Now W].
    + split; [lia|]. done.
    + apply bool_decide_eq_false in Hentry. split; [lia|]. done.
  - apply bool_decide_eq_false in Hdone.
    destruct (roleNameResponse rt ip err0 (σ1, ch)) as [[status err|reason] σ']
      eqn:Hresp.
    + exists (S (Z.to_nat (t - Now σ))), status, err, σ'.
      split; [intros more; by apply roleNameHandler_more_fuel|].
      assert (Now σ' = Now σ1) as ->.
      { unfold roleNameResponse in Hresp.
        destruct (is_var "metadata.PodNotFound" err0); [by injection Hresp as _ _ <-|].
        destruct err0; [by injection Hresp as _ _ <-|].
        destruct (decide (default EmptyString ch = EmptyString));
          [by injection Hresp as _ _ <-|].
        destruct (Write rt (default EmptyString ch) (W σ1)).
        by injection Hresp as _ _ <-. }
      split; lia.
    + exfalso. unfold roleNameResponse in Hresp.
      destruct (is_var "metadata.PodNotFound" err0); [discriminate|].
      destruct err0; [discriminate|].
      destruct (decide (default EmptyString ch = EmptyString)); [discriminate|].
      by destruct (Write rt (default EmptyString ch) (W σ1)).
Qed.

Lemma request_with_deadline_is_answered_witness :
  exists fuel status err σ',
    (forall more,
       roleNameHandler scenario.runtime scenario.timing (fuel + more)
         cases.refusingAgent
         (scenario.request "10.0.0.5:40000" EmptyString (Some (Second, DeadlineExceeded)))
         (NewWorld None)
       = Some (Returned status err, σ'))
    /\ Now σ' <= Z.max Second (Now (NewWorld None))
    /\ (Second <= Now σ' ->
        status = StatusInternalServerError /\ err = Some DeadlineExceeded
        /\ W σ' = W (NewWorld None)).
Proof.
  apply (request_with_deadline_is_answered scenario.runtime scenario.timing
           cases.refusingAgent
           (scenario.request "10.0.0.5:40000" EmptyString (Some (Second, DeadlineExceeded)))
           (NewWorld None) "10.0.0.5" Second DeadlineExceeded);
    [reflexivity | reflexivity | intros n; discriminate
    | intros n; apply grow_positive; reflexivity].
Defined.

(** ** The response meters *)

(** [getStatusBucket] names the bucket of a status from 200 to 599 by its
    hundreds digit, and every other status, the 1xx among them, is
    "unknown". *)
Theorem getStatusBucket_by_hundreds (status : Z) :
  getStatusBucket status
  = if (200 <=? status) && (status <? 600)
    then String (ascii_of_nat (48 + Z.to_nat (status / 100))) "xx"
    else "unknown".
Proof.
  unfold getStatusBucket.
  destruct (Z.leb_spec 200 status), (Z.ltb_spec status 300),
    (Z.leb_spec 300 status), (Z.ltb_spec status 400),
    (Z.leb_spec 400 status), (Z.ltb_spec status 500),
    (Z.leb_spec 500 status), (Z.ltb_spec status 600);
    cbn [andb]; try reflexivity; try lia.
  - replace (status / 100) with 2 by (Z.to_euclidean_division_equations; lia).
    reflexivity.
  - replace (status / 100) with 3 by (Z.to_euclidean_division_equations; lia).
    reflexivity.
  - replace (status / 100) with 4 by (Z.to_euclidean_division_equations; lia).
    reflexivity.
  - replace (status / 100) with 5 by (Z.to_euclidean_division_equations; lia).
    reflexivity.
Qed.

Lemma credentialsHandler_statuses (rt : Runtime) (h : Helpers) (s : Server)
    (req : Request) (σ σ' : World) (status : Z) (err : option error) :
  credentialsHandler rt h s req σ = (Returned status err, σ') ->
  (status = StatusOK /\ err = None)
  \/ ((status = StatusBadRequest \/ status = StatusForbidden
       \/ status = StatusNotFound \/ status = StatusInternalServerError)
      /\ err <> None).
Proof.
  unfold credentialsHandler. rewrite Server_clientIP_ParseForm.
  destruct (Server_clientIP s req) as [ip [e|]];
    [intros [= <- <- <-]; right; auto 6|].
  destruct (findRole h ip) as [foundRole [e|]];
    [intros [= <- <- <-]; right; auto 6|].
  destruct (decide (foundRole = EmptyString));
    [intros [= <- <- <-]; right; auto 6|].
  cbn [Vars ParseForm].
  destruct (decide (Get (Vars req) "role" = EmptyString));
    [intros [= <- <- <-]; right; auto 6|].
  destruct (decide (foundRole <> Get (Vars req) "role"));
    [intros [= <- <- <-]; right; auto 6|].
  destruct (credentialsForRole h (Get (Vars req) "role")) as [c [e|]].
  { destruct (ctx_Err h); [|discriminate]. intros [= <- <- <-]; right; auto 6. }
  match goal with
  | |- context [Encode ?a ?b ?w] => destruct (Encode a b w) as [w' [e|]]
  end; intros [= <- <- <-]; [right|left]; auto 6.
Qed.

(** The last meter that either endpoint marks, after all that its handler
    asked and marked, is the response meter of the bucket 2xx when the
    handler returned no error, and of 4xx or 5xx when it returned one; the
    buckets 3xx and unknown are never marked. *)
Theorem endpoints_mark_a_known_bucket :
  (forall (rt : Runtime) (h : Helpers) (s : Server) (req : Request) (σ σ' : World)
          (status : Z) (err : option error),
      serveCredentials rt h s req σ = (Returned status err, σ') ->
      exists bucket,
        last (Trace σ') = Some (MeterMark ("handlerResponse-credentials." +:+ bucket))
        /\ (bucket = "2xx" /\ err = None
            \/ (bucket = "4xx" \/ bucket = "5xx") /\ err <> None))
  /\ (forall (rt : Runtime) (tm : Timing) (fuel : nat) (s : Server) (req : Request)
             (σ σ' : World) (status : Z) (err : option error),
        serveRoleName rt tm fuel s req σ = Some (Returned status err, σ') ->
        exists bucket,
          last (Trace σ') = Some (MeterMark ("handlerResponse-roleName." +:+ bucket))
          /\ (bucket = "2xx" /\ err = None
              \/ (bucket = "4xx" \/ bucket = "5xx") /\ err <> None)).
Proof.
  assert (Hbucket : forall (rt : Runtime) (name : string) (r : Outcome * World)
                      (σ' : World) (status : Z) (err : option error),
            errorResponse rt name r = (Returned status err, σ') ->
            (status = StatusOK /\ err = None)
            \/ ((status = StatusBadRequest \/ status = StatusForbidden
                 \/ status = StatusNotFound \/ status = StatusInternalServerError)
                /\ err <> None) ->
            exists bucket,
              last (Trace σ')
              = Some (MeterMark ("handlerResponse-" +:+ name +:+ "." +:+ bucket))
              /\ (bucket = "2xx" /\ err = None
                  \/ (bucket = "4xx" \/ bucket = "5xx") /\ err <> None)).
  { intros rt name [[status0 err0|reason] σ0] σ' status err Hserved Hstatus;
      [|discriminate].
    assert (status0 = status /\ err0 = err) as [-> ->].
    { pose proof (errorResponse_outcome rt name (Returned status0 err0, σ0)) as Hout.
      rewrite Hserved in Hout. simpl in Hout. by injection Hout as -> ->. }
    exists (getStatusBucket status). split.
    - pose proof (errorResponse_trace rt name status err σ0) as Htrace.
      rewrite Hserved in Htrace. simpl in Htrace. rewrite Htrace.
      apply last_snoc.
    - destruct Hstatus as [[-> ->] | [[-> | [-> | [-> | ->]]] Herr]]; auto. }
  split.
  - intros rt h s req σ σ' status err Hserved.
    unfold serveCredentials, errorHandler in Hserved.
    destruct (credentialsHandler rt h s req σ) as [[status0 err0|reason] σ0] eqn:Hh;
      [|discriminate].
    assert (status0 = status /\ err0 = err) as [-> ->].
    { pose proof (errorResponse_outcome rt "credentials" (Returned status0 err0, σ0))
        as Hout.
      rewrite Hserved in Hout. simpl in Hout. by injection Hout as -> ->. }
    apply (Hbucket rt "credentials" _ _ _ _ Hserved).
    by apply credentialsHandler_statuses in Hh.
  - intros rt tm fuel s req σ σ' status err Hserved.
    unfold serveRoleName in Hserved.
    destruct (roleNameHandler rt tm fuel s req σ) as [[[status0 err0|reason] σ0]|]
      eqn:Hh; [|discriminate|discriminate].
    cbn [fmap option_fmap option_map] in Hserved. apply (inj Some) in Hserved.
    assert (status0 = status /\ err0 = err) as [-> ->].
    { pose proof (errorResponse_outcome rt "roleName" (Returned status0 err0, σ0))
        as Hout.
      rewrite Hserved in Hout. simpl in Hout. by injection Hout as -> ->. }
    apply (Hbucket rt "roleName" _ _ _ _ Hserved).
    apply roleNameHandler_200_found in Hh as [(-> & -> & _) | [[-> | ->] Herr]]; auto 6.
Qed.

(** ** The server's credentials call *)


(** ** The stub finder behind the role-name handler *)

(** With testutil's stub finder holding a pod whose role is not empty, the
    handler answers any request whose address parses and whose context is
    not done when the first lookup returns: one lookup, no interval, and
    200 with the pod's role, whatever the IP and the budget.  With a stub
    that holds no pod, or a pod without a role, it never returns 200. *)
Theorem stub_pod_is_answered_at_the_first_lookup {Pod : Type} (rt : Runtime)
    (tm : Timing) (config : ServerConfig) (PodRole : Pod -> string)
    (p : Pod) (req : Request) (σ : World) (ip : string) (more : nat) :
  Server_clientIP (cases.stubAgent config PodRole (testutil.NewStubFinder (Some p))) req
  = (ip, None) ->
  PodRole p <> EmptyString ->
  ctxDone (Ctx req) (Now σ + latency tm 0) = false ->
  roleNameHandler rt tm (S more)
    (cases.stubAgent config PodRole (testutil.NewStubFinder (Some p))) req σ
  = Some (Returned StatusOK None,
          {| W := fst (Write rt (PodRole p) (W σ));
             Trace := Trace σ ++ [FindRoleCall ip; MeterMark "roleNameHandler.success"];
             Now := Now σ + latency tm 0 |})
  /\ (forall (f : testutil.stubFinder Pod) fuel σ' status err,
        testutil.FindRoleFromIP PodRole f ip = (EmptyString, None) ->
        (forall ip', testutil.FindRoleFromIP PodRole f ip' = (EmptyString, None))
        /\ (roleNameHandler rt tm fuel (cases.stubAgent config PodRole f) req σ
            = Some (Returned status err, σ') ->
            status <> StatusOK)).
Proof.
  intros Hip Hrole Hlive. split.
  - unfold roleNameHandler. rewrite Hip. rewrite Retry_S, roleOp_eq.
    cbn [cases.stubAgent finder testutil.FindRoleFromIP testutil.NewStubFinder
           testutil.pod].
    rewrite decide_False by done.
    assert (Hresp : roleNameResponse rt ip None
                      (setNow (Now σ + latency tm 0) (emit (FindRoleCall ip) σ),
                       Some (PodRole p))
                    = (Returned StatusOK None,
                       {| W := fst (Write rt (PodRole p) (W σ));
                          Trace := Trace σ ++ [FindRoleCall ip;
                                               MeterMark "roleNameHandler.success"];
                          Now := Now σ + latency tm 0 |})).
    { unfold roleNameResponse. cbn [is_var default]. unfold id.
      rewrite decide_False by done. cbn [setNow emit W].
      destruct (Write rt (PodRole p) (W σ)) as [w werr].
      unfold emit, setW, setNow. cbn [fst Trace Now W]. by rewrite <- app_assoc. }
    destruct (Ctx req) as [[t ce]|]; [|by rewrite Hresp].
    unfold roleClock. cbn [fst setNow Now]. cbn [ctxDone] in Hlive.
    by rewrite Hlive, Hresp.
  - intros f fuel σ' status err Hnone. split.
    + intros ip'. unfold testutil.FindRoleFromIP in *. by destruct (testutil.pod f).
    + intros Hh Hok.
      apply roleNameHandler_200_found in Hh
        as [(_ & _ & ip0 & n & r & _ & Hfound & Hne) | [[-> | ->] _]];
        [|discriminate Hok|discriminate Hok].
      cbn [cases.stubAgent finder] in Hfound.
      unfold testutil.FindRoleFromIP in *.
      destruct (testutil.pod f); congruence.
Qed.

Lemma stub_pod_is_answered_at_the_first_lookup_witness :
  response
    (errorResponse scenario.runtime "roleName"
       (Returned StatusOK None,
        {| W := fst (Write scenario.runtime "reader" (W (NewWorld None)));
           Trace := Trace (NewWorld None)
                    ++ [FindRoleCall "10.0.0.5"; MeterMark "roleNameHandler.success"];
           Now := Now (NewWorld None) + latency scenario.timing 0 |}))
  = Some {| StatusCode := StatusOK;
            Header := {[ "Content-Type" := "text/plain; charset=utf-8" ]};
            ResponseBody := "reader" |}
  /\ roleNameHandler scenario.runtime scenario.timing 1
       (cases.stubAgent (NewConfig 8181) id (testutil.NewStubFinder (Some "reader")))
       (scenario.request "10.0.0.5:40000" EmptyString (Some (Second, Canceled)))
       (NewWorld None)
     = Some (Returned StatusOK None,
             {| W := fst (Write scenario.runtime "reader" (W (NewWorld None)));
                Trace := Trace (NewWorld None)
                         ++ [FindRoleCall "10.0.0.5"; MeterMark "roleNameHandler.success"];
                Now := Now (NewWorld None) + latency scenario.timing 0 |}).
Proof.
  split; [reflexivity|].
  apply (stub_pod_is_answered_at_the_first_lookup scenario.runtime scenario.timing
           (NewConfig 8181) id "reader"
           (scenario.request "10.0.0.5:40000" EmptyString (Some (Second, Canceled)))
           (NewWorld None) "10.0.0.5" 0);
    [reflexivity | discriminate | reflexivity].
Defined.

(** ** The role-name handler without a budget *)

Lemma Retry_without_budget (tm : Timing) (s : Server) (ip : string) (start : Z)
    (fuel n : nat) (st : RoleState) :
  MaxElapsedTime (cfg s) = 0 ->
  (forall n, ~ resolved (finder s n ip)) ->
  backoff.Retry roleClock roleSleepUntil (roleOp tm s ip) (strategyOf tm s)
    None start fuel n st = None.
Proof.
  intros Hzero Hnone. revert n st.
  induction fuel as [|fuel IH]; intros n [σ roleCh]; [reflexivity|].
  rewrite Retry_S, roleOp_eq.
  assert (Hgo : forall t, backoff.NextBackOff (strategyOf tm s) n t = Some (draw tm n))
    by (intros t; apply NextBackOff_go; by left).
  specialize (Hnone n).
  destruct (finder s n ip) as [role [e|]].
  - cbn [ctxDone]. rewrite Hgo. apply IH.
  - destruct (decide (role = EmptyString)) as [->|Hne].
    + cbn [ctxDone]. rewrite Hgo. apply IH.
    + exfalso. apply Hnone. by split.
Qed.

(** With [MaxElapsedTime] 0 the strategy never stops: a request whose
    context is never done, from an IP that no lookup resolves, is not
    answered, however many lookups the handler may make. *)
Theorem zero_budget_is_never_answered (rt : Runtime) (tm : Timing) (s : Server)
    (req : Request) (σ : World) (ip : string) (fuel : nat) :
  Server_clientIP s req = (ip, None) ->
  Ctx req = None ->
  MaxElapsedTime (cfg s) = 0 ->
  (forall n, ~ resolved (finder s n ip)) ->
  roleNameHandler rt tm fuel s req σ = None.
Proof.
  intros Hip Hctx Hzero Hnone.
  rewrite (roleNameHandler_live rt tm s ip) by done.
  by rewrite Retry_without_budget.
Qed.

Lemma zero_budget_is_never_answered_witness :
  MaxElapsedTime (cfg cases.unboundedAgent) = 0
  /\ roleNameHandler scenario.runtime scenario.timing 1000 cases.unboundedAgent
       (scenario.request "10.0.0.99:40000" EmptyString None) (NewWorld None)
     = None.
Proof.
  split; [reflexivity|].
  apply (zero_budget_is_never_answered scenario.runtime scenario.timing
           cases.unboundedAgent
           (scenario.request "10.0.0.99:40000" EmptyString None) (NewWorld None)
           "10.0.0.99" 1000);
    [reflexivity | reflexivity | reflexivity
    | intros n [_ Hrole]; apply Hrole; reflexivity].
Defined.

(** ** What the role-name handler asks of the finder *)

(** The lookups in a trace. *)
Fixpoint finderCalls (t : list Event) : nat :=
  match t with
  | [] => 0
  | FindRoleCall _ :: t => S (finderCalls t)
  | _ :: t => finderCalls t
  end.

Lemma finderCalls_app (t u : list Event) :
  finderCalls (t ++ u) = (finderCalls t + finderCalls u)%nat.
Proof.
  induction t as [|e t IH]; [reflexivity|].
  destruct e; simpl; rewrite IH; reflexivity.
Qed.

Lemma finderCalls_replicate (k : nat) (ip : string) :
  finderCalls (replicate k (FindRoleCall ip)) = k.
Proof. induction k as [|k IH]; simpl; congruence. Qed.

Lemma providerCalls_replicate (k : nat) (ip : string) :
  providerCalls (replicate k (FindRoleCall ip)) = 0%nat.
Proof. induction k as [|k IH]; simpl; congruence. Qed.

(** Each round of the loop that is followed by another one uses up at
    least the smallest interval [d] of what is left of the budget. *)
Lemma Retry_lookups_bound (tm : Timing) (s : Server) (ip : string) (d : Z)
    (ctx : Context) (start : Z) (fuel n : nat) (σ σ' : World)
    (roleCh ch' : option string) (err : option error) :
  MaxElapsedTime (cfg s) <> 0 ->
  (forall n, 0 <= latency tm n) ->
  0 < d ->
  (forall n, d <= draw tm n) ->
  backoff.Retry roleClock roleSleepUntil (roleOp tm s ip) (strategyOf tm s)
    ctx start fuel n (σ, roleCh) = Some (err, (σ', ch')) ->
  exists k,
    Trace σ' = Trace σ ++ replicate (S k) (FindRoleCall ip)
    /\ (k = 0%nat
        \/ Z.of_nat k * d <= MaxElapsedTime (cfg s) - (Now σ - start) + d).
Proof.
  intros Hbudget Hlat Hd Hdraw.
  revert n σ. induction fuel as [|fuel IH]; intros n σ; [discriminate|].
  rewrite Retry_S.
  destruct (roleOp tm s ip n (σ, roleCh)) as [[e|] [σ1 ch1]] eqn:Hop.
  2:{ intros [= <- <- <-]. exists 0%nat. split; [|by left].
      rewrite roleOp_eq in Hop. destruct (finder s n ip) as [role [e'|]];
        [discriminate|].
      destruct (decide (role = EmptyString)); [discriminate|].
      by injection Hop as <- _. }
  assert (Hσ1 : σ1 = setNow (Now σ + latency tm n) (emit (FindRoleCall ip) σ)
                /\ ch1 = roleCh).
  { rewrite roleOp_eq in Hop. destruct (finder s n ip) as [role [e'|]].
    - by injection Hop as _ <- <-.
    - destruct (decide (role = EmptyString)); [|discriminate].
      by injection Hop as _ <- <-. }
  destruct Hσ1 as [-> ->].
  assert (Hstop : forall t,
            Some (Some e, (setNow t (emit (FindRoleCall ip) σ), roleCh))
            = Some (err, (σ', ch')) ->
            exists k,
              Trace σ' = Trace σ ++ replicate (S k) (FindRoleCall ip)
              /\ (k = 0%nat
                  \/ Z.of_nat k * d
                     <= MaxElapsedTime (cfg s) - (Now σ - start) + d)).
  { intros t [= <- <- <-]. exists 0%nat. split; [done|by left]. }
  destruct (ctxDone _ _); [apply Hstop|].
  destruct (backoff.NextBackOff _ _ _) as [next|] eqn:Hnext; [|apply Hstop].
  assert (Hin : Now σ + latency tm n - start <= MaxElapsedTime (cfg s)).
  { destruct (Z_le_gt_dec (Now σ + latency tm n - start) (MaxElapsedTime (cfg s)))
      as [|Hgt]; [done|].
    assert (backoff.NextBackOff (strategyOf tm s) n (Now σ + latency tm n - start)
            = None)
      as Hnone by (apply NextBackOff_Stop; split; [done|simpl; lia]).
    unfold roleClock in Hnext. cbn [fst setNow Now] in Hnext. congruence. }
  apply NextBackOff_interval in Hnext. simpl in Hnext. subst next.
  assert (Hnext : backoff.Retry roleClock roleSleepUntil (roleOp tm s ip)
                    (strategyOf tm s) ctx start fuel (S n)
                    (roleSleepUntil
                       (roleClock (setNow (Now σ + latency tm n)
                                     (emit (FindRoleCall ip) σ), roleCh) + draw tm n)
                       (setNow (Now σ + latency tm n) (emit (FindRoleCall ip) σ),
                        roleCh))
                  = Some (err, (σ', ch')) ->
                  exists k,
                    Trace σ' = Trace σ ++ replicate (S k) (FindRoleCall ip)
                    /\ (k = 0%nat
                        \/ Z.of_nat k * d
                           <= MaxElapsedTime (cfg s) - (Now σ - start) + d)).
  { intros Hrun. apply IH in Hrun as (k & Htrace & Hk).
    exists (S k). split.
    - rewrite Htrace. cbn [roleSleepUntil fst setNow emit Trace].
      by rewrite <- app_assoc.
    - right. unfold roleClock, roleSleepUntil in Hk. cbn [fst setNow Now] in Hk.
      pose proof (Hlat n). pose proof (Hdraw n).
      destruct Hk as [-> | Hk]; lia. }
  destruct ctx as [[t ce]|]; [|exact Hnext].
  destruct (bool_decide _); [apply Hstop|exact Hnext].
Qed.

Lemma roleNameHandler_trace (rt : Runtime) (tm : Timing) (fuel : nat) (s : Server)
    (req : Request) (σ σ' : World) (out : Outcome) :
  roleNameHandler rt tm fuel s req σ = Some (out, σ') ->
  exists (k : nat) (marks : list Event),
    Trace σ'
    = Trace σ ++ replicate k (FindRoleCall (fst (Server_clientIP s req))) ++ marks
    /\ (marks = []
        \/ marks = [MeterMark "roleNameHandler.podNotFound"]
        \/ marks = [MeterMark "roleNameHandler.success"])
    /\ (forall d,
          MaxElapsedTime (cfg s) <> 0 ->
          (forall n, 0 <= latency tm n) ->
          0 < d ->
          (forall n, d <= draw tm n) ->
          (Z.of_nat k - 2) * d <= Z.max 0 (MaxElapsedTime (cfg s))).
Proof.
  unfold roleNameHandler.
  destruct (Server_clientIP s req) as [ip [e|]]; cbn [fst].
  { intros [= <- <-]. exists 0%nat, []. split; [|split; [by left|]].
    - simpl. by rewrite app_nil_r.
    - intros d _ _ Hd _. lia. }
  match goal with
  | |- context [backoff.Retry ?c ?sl ?op ?b ?cx ?st fuel ?n ?x] =>
      destruct (backoff.Retry c sl op b cx st fuel n x) as [[err0 [σ1 ch]]|] eqn:Hrun;
      [|discriminate]
  end.
  destruct (Retry_looks_up_only tm s ip _ _ _ _ _ _ _ _ _ Hrun)
    as (_ & [k Htrace] & _).
  assert (Hbound : forall d,
            MaxElapsedTime (cfg s) <> 0 ->
            (forall n, 0 <= latency tm n) ->
            0 < d ->
            (forall n, d <= draw tm n) ->
            (Z.of_nat (S k) - 2) * d <= Z.max 0 (MaxElapsedTime (cfg s))).
  { intros d Hbudget Hlat Hd Hdraw.
    destruct (Retry_lookups_bound tm s ip d _ _ _ _ _ _ _ _ _
                Hbudget Hlat Hd Hdraw Hrun) as (k' & Htrace' & Hk).
    assert (k' = k) as ->.
    { rewrite Htrace in Htrace'. apply app_inv_head in Htrace'.
      apply (f_equal length) in Htrace'. rewrite !length_replicate in Htrace'. lia. }
    destruct Hk as [-> | Hk]; lia. }
  assert (Hresp : Some (roleNameResponse rt ip err0 (σ1, ch)) = Some (out, σ') ->
                  exists (k : nat) (marks : list Event),
                    Trace σ' = Trace σ ++ replicate k (FindRoleCall ip) ++ marks
                    /\ (marks = []
                        \/ marks = [MeterMark "roleNameHandler.podNotFound"]
                        \/ marks = [MeterMark "roleNameHandler.success"])
                    /\ (forall d,
                          MaxElapsedTime (cfg s) <> 0 ->
                          (forall n, 0 <= latency tm n) ->
                          0 < d ->
                          (forall n, d <= draw tm n) ->
                          (Z.of_nat k - 2) * d <= Z.max 0 (MaxElapsedTime (cfg s)))).
  { unfold roleNameResponse.
    destruct (is_var "metadata.PodNotFound" err0).
    { intros [= <- <-]. exists (S k), [MeterMark "roleNameHandler.podNotFound"].
      cbn [emit Trace]. rewrite Htrace, <- app_assoc. auto. }
    destruct err0 as [e0|].
    { intros [= <- <-]. exists (S k), []. rewrite Htrace, app_nil_r. auto. }
    destruct (decide (default EmptyString ch = EmptyString)).
    { intros [= <- <-]. exists (S k), []. rewrite Htrace, app_nil_r. auto. }
    destruct (Write rt (default EmptyString ch) (W σ1)) as [w werr].
    intros [= <- <-]. exists (S k), [MeterMark "roleNameHandler.success"].
    cbn [emit setW Trace]. rewrite Htrace, <- app_assoc. auto. }
  destruct (Ctx req) as [[t ce]|]; [|exact Hresp].
  destruct (bool_decide (t <= roleClock (σ1, ch))); [|exact Hresp].
  destruct (bool_decide (t <= Now σ)); intros [= <- <-].
  - exists 0%nat, []. split; [|split; [by left|]].
    + simpl. by rewrite app_nil_r.
    + intros d _ _ Hd _. lia.
  - exists (S k), []. cbn [setNow fst Trace].
    rewrite Htrace, app_nil_r. auto.
Qed.

(** The role-name handler asks the finder only, and only about the
    client's IP: besides lookups of that IP it marks at most a meter of
    its own, and it never asks the credentials provider. *)
Theorem roleNameHandler_looks_up_the_client_only (rt : Runtime) (tm : Timing)
    (fuel : nat) (s : Server) (req : Request) (σ σ' : World) (out : Outcome) :
  roleNameHandler rt tm fuel s req σ = Some (out, σ') ->
  exists (k : nat) (marks : list Event),
    Trace σ'
    = Trace σ ++ replicate k (FindRoleCall (fst (Server_clientIP s req))) ++ marks
    /\ (marks = []
        \/ marks = [MeterMark "roleNameHandler.podNotFound"]
        \/ marks = [MeterMark "roleNameHandler.success"])
    /\ providerCalls (Trace σ') = providerCalls (Trace σ).
Proof.
  intros Hh. apply roleNameHandler_trace in Hh as (k & marks & Htrace & Hmarks & _).
  exists k, marks. split; [exact Htrace|]. split; [exact Hmarks|].
  rewrite Htrace, !providerCalls_app, providerCalls_replicate.
  destruct Hmarks as [-> | [-> | ->]]; simpl; lia.
Qed.

Lemma roleNameHandler_looks_up_the_client_only_witness :
  exists σ',
    roleNameHandler scenario.runtime scenario.timing 3
      (scenario.agent (NewConfig 8181) 2)
      (scenario.request "10.0.0.5:40000" EmptyString None) (NewWorld None)
    = Some (Returned StatusOK None, σ')
    /\ providerCalls (Trace σ') = providerCalls (Trace (NewWorld None)).
Proof.
  eexists. split; [vm_compute; reflexivity|].
  match goal with
  | |- providerCalls (Trace ?w) = _ =>
      destruct (roleNameHandler_looks_up_the_client_only scenario.runtime
                  scenario.timing 3 (scenario.agent (NewConfig 8181) 2)
                  (scenario.request "10.0.0.5:40000" EmptyString None)
                  (NewWorld None) w (Returned StatusOK None) eq_refl)
        as (_ & _ & _ & _ & H)
  end.
  exact H.
Defined.

(** The backoff bounds the load on the finder: when the budget is not 0
    and every interval the strategy draws is at least [d], whatever the
    finder and the request's context do, a request makes at most two
    lookups more than intervals of [d] fit into the budget. *)
Theorem roleNameHandler_lookups_are_bounded (rt : Runtime) (tm : Timing)
    (fuel : nat) (s : Server) (req : Request) (σ σ' : World) (out : Outcome)
    (d : Z) :
  MaxElapsedTime (cfg s) <> 0 ->
  (forall n, 0 <= latency tm n) ->
  0 < d ->
  (forall n, d <= draw tm n) ->
  roleNameHandler rt tm fuel s req σ = Some (out, σ') ->
  (Z.of_nat (finderCalls (Trace σ')) - Z.of_nat (finderCalls (Trace σ)) - 2) * d
  <= Z.max 0 (MaxElapsedTime (cfg s)).
Proof.
  intros Hbudget Hlat Hd Hdraw Hh.
  apply roleNameHandler_trace in Hh as (k & marks & Htrace & Hmarks & Hbound).
  specialize (Hbound d Hbudget Hlat Hd Hdraw).
  rewrite Htrace, !finderCalls_app, finderCalls_replicate.
  assert (finderCalls marks = 0%nat) as ->
    by (destruct Hmarks as [-> | [-> | ->]]; reflexivity).
  replace (Z.of_nat (finderCalls (Trace σ) + (k + 0))
           - Z.of_nat (finderCalls (Trace σ)) - 2)
    with (Z.of_nat k - 2) by lia.
  exact Hbound.
Qed.

Lemma grow_at_least (n : nat) (d : Z) :
  0 < d <= 60 * Second -> d <= scenario.grow n d.
Proof.
  intros Hd. induction n as [|n IH]; simpl; [lia|].
  apply Z.min_glb; [lia|].
  apply Z.div_le_lower_bound; lia.
Qed.

Lemma roleNameHandler_lookups_are_bounded_witness :
  exists σ',
    roleNameHandler scenario.runtime scenario.timing 9
      (scenario.agent (NewConfig 8181) 0)
      (scenario.request "10.0.0.99:40000" EmptyString None) (NewWorld None)
    = Some (Returned StatusNotFound
              (Some (Errorf ("pod not found for ip " +:+ "10.0.0.99"))), σ')
    /\ finderCalls (Trace σ') = 7%nat
    /\ (Z.of_nat (finderCalls (Trace σ'))
        - Z.of_nat (finderCalls (Trace (NewWorld None))) - 2) * (500 * Millisecond)
       <= Z.max 0 (MaxElapsedTime (cfg (scenario.agent (NewConfig 8181) 0))).
Proof.
  eexists. split; [vm_compute; reflexivity|]. split; [reflexivity|].
  apply (roleNameHandler_lookups_are_bounded scenario.runtime scenario.timing 9
           (scenario.agent (NewConfig 8181) 0)
           (scenario.request "10.0.0.99:40000" EmptyString None) (NewWorld None) _
           (Returned StatusNotFound
              (Some (Errorf ("pod not found for ip " +:+ "10.0.0.99"))))
           (500 * Millisecond));
    [discriminate | intros n; discriminate | reflexivity
    | intros n; apply grow_at_least; split; [reflexivity | discriminate]
    | vm_compute; reflexivity].
Defined.
